(** * DeepKlarity quiz generator: a shallow embedding of the generation
  pipeline and of the history and display components.

  Embedded from the sources:
  - the functions the backend design gives in code: [validate_quiz_json],
    [validate_question_grounding], [check_duplicate_questions],
    [generate_quiz], [retry_with_backoff], [validate_url],
    [assign_questions_to_sections], [get_cached_quiz] and [cache_quiz];
  - the React components [QuizHistory] (pagination state), [QuizDisplay]
    (marking of the correct option) and [QuizGenerator] (the submit
    handler), with the API service they call.

  The design gives the database service, the scraper and the route of
  [POST /api/quiz/generate] as outlines in prose only.  Module [Backend]
  models them from the words of the specification, and says so at each
  definition.

  Python values are modelled as a small JSON-like value type, exceptions as
  an error result, the logger and the mutated question list as explicit
  state.  A text is a [string], the bytes of its encoding.  What a library
  decides and the sources do not show is a parameter: [str.lower] on all of
  Unicode, the lengths [time.sleep] accepts, the expire times Redis
  accepts, the similarity measures.  [String.prototype.trim], MD5 and, for
  the concrete runs, the matcher of [difflib] are written out. *)

From Stdlib Require Import String Ascii List ZArith Lia Bool Arith PeanoNat.
From Stdlib Require QArith.
Set Warnings "-register-all".
Import ListNotations.
Local Open Scope string_scope.
Local Open Scope list_scope.
Local Open Scope nat_scope.

(* ===================================================================== *)
(** ** Python values, exceptions and the operations the code applies     *)
(* ===================================================================== *)

Module Py.

(** What [JsonOutputParser] can hand back: the JSON data model as Python
    sees it.  A dict is kept as its items, in order, with distinct keys. *)
Inductive value : Type :=
| VNone
| VBool (b : bool)
| VInt (z : Z)
| VStr (s : string)
| VList (l : list value)
| VDict (items : list (string * value)).

(** The [ValueError]s of [validate_quiz_json], by message:
    - [MissingQuiz]: "Missing 'quiz' field"
    - [MissingField i f]: "Question {i} missing '{f}'"
    - [OptionsCount i]: "Question {i} must have exactly 4 options"
    - [InvalidAnswer i a]: "Question {i} has invalid answer: {a}"
    - [InvalidDifficulty i]: "Question {i} has invalid difficulty" *)
Inductive violation : Type :=
| MissingQuiz
| MissingField (i : nat) (field : string)
| OptionsCount (i : nat)
| InvalidAnswer (i : nat) (answer : value)
| InvalidDifficulty (i : nat).

Inductive exn : Type :=
| ValueError (v : violation)
| KeyError (key : string)
| TypeError
| IndexError
| ZeroDivisionError
| OtherError (what : string).

Inductive result (A : Type) : Type :=
| Ok (a : A)
| Raise (e : exn).
Arguments Ok {A} a.
Arguments Raise {A} e.

Definition bind {A B : Type} (r : result A) (k : A -> result B) : result B :=
  match r with
  | Ok a => k a
  | Raise e => Raise e
  end.

(** [needle in haystack] on two [str]: substring test. *)
Fixpoint str_contains (needle haystack : string) : bool :=
  String.prefix needle haystack ||
  match haystack with
  | EmptyString => false
  | String _ rest => str_contains needle rest
  end.

Definition is_str (k : string) (v : value) : bool :=
  match v with
  | VStr s => String.eqb k s
  | _ => false
  end.

Fixpoint lookup (k : string) (items : list (string * value)) : option value :=
  match items with
  | [] => None
  | (k', v) :: rest => if String.eqb k k' then Some v else lookup k rest
  end.

(** [k in c] for a string [k]: key of a dict, element of a list, substring
    of a string; the other values are not iterable. *)
Definition contains (k : string) (c : value) : result bool :=
  match c with
  | VDict items => Ok (match lookup k items with Some _ => true | None => false end)
  | VList l => Ok (existsb (is_str k) l)
  | VStr s => Ok (str_contains k s)
  | _ => Raise TypeError
  end.

(** [c[k]] for a string [k]. *)
Definition getitem (c : value) (k : string) : result value :=
  match c with
  | VDict items =>
      match lookup k items with
      | Some v => Ok v
      | None => Raise (KeyError k)
      end
  | _ => Raise TypeError
  end.

(** [len(v)]. *)
Definition len (v : value) : result nat :=
  match v with
  | VStr s => Ok (String.length s)
  | VList l => Ok (List.length l)
  | VDict items => Ok (List.length items)
  | _ => Raise TypeError
  end.

Fixpoint chars (s : string) : list value :=
  match s with
  | EmptyString => []
  | String c rest => VStr (String c EmptyString) :: chars rest
  end.

(** What a [for] loop over [v] visits. *)
Definition iter (v : value) : result (list value) :=
  match v with
  | VList l => Ok l
  | VStr s => Ok (chars s)
  | VDict items => Ok (map (fun kv => VStr (fst kv)) items)
  | _ => Raise TypeError
  end.

(** [v in [s1, ..., sn]] against a list of string literals: [==] holds
    only for an equal [str]. *)
Definition one_of (v : value) (literals : list string) : bool :=
  match v with
  | VStr s => existsb (String.eqb s) literals
  | _ => false
  end.

(** [l.pop(j)]: the list without its element of index [j]. *)
Fixpoint remove_at {A : Type} (j : nat) (l : list A) : list A :=
  match l, j with
  | [], _ => []
  | _ :: rest, O => rest
  | x :: rest, S j' => x :: remove_at j' rest
  end.

Definition pop {A : Type} (j : nat) (l : list A) : result (list A) :=
  if j <? List.length l then Ok (remove_at j l) else Raise IndexError.

End Py.

Import Py.

Declare Scope py_scope.
Delimit Scope py_scope with py.
Notation "x <- c ;; k" := (Py.bind c (fun x => k))
(at level 61, c at next level, right associativity) : py_scope.
Notation "c ;;; k" := (Py.bind c (fun _ => k))
(at level 61, right associativity) : py_scope.
Local Open Scope py_scope.

(* ===================================================================== *)
(** ** LLM response validation: [validate_quiz_json]                     *)
(* ===================================================================== *)

Module Validation.

Definition quiz_fields : list string :=
  ["question"; "options"; "answer"; "difficulty"; "explanation"].

(** [for field in quiz_fields: if field not in q: raise ValueError(...)] *)
Fixpoint check_fields (i : nat) (q : value) (fields : list string) : result unit :=
  match fields with
  | [] => Ok tt
  | field :: rest =>
      present <- contains field q ;;
      if present then check_fields i q rest
      else Raise (ValueError (MissingField i field))
  end.

(** The body of the loop over [enumerate(response['quiz'])]. *)
Definition validate_question (i : nat) (q : value) : result unit :=
  check_fields i q quiz_fields ;;;
  options <- getitem q "options" ;;
  n <- len options ;;
  if negb (n =? 4) then Raise (ValueError (OptionsCount i)) else
  answer <- getitem q "answer" ;;
  if negb (one_of answer ["A"; "B"; "C"; "D"])
  then Raise (ValueError (InvalidAnswer i answer)) else
  difficulty <- getitem q "difficulty" ;;
  if negb (one_of difficulty ["easy"; "medium"; "hard"])
  then Raise (ValueError (InvalidDifficulty i)) else
  Ok tt.

Fixpoint validate_questions (i : nat) (qs : list value) : result unit :=
  match qs with
  | [] => Ok tt
  | q :: rest => validate_question i q ;;; validate_questions (S i) rest
  end.

Definition validate_quiz_json (response : value) : result bool :=
  has_quiz <- contains "quiz" response ;;
  if negb has_quiz then Raise (ValueError MissingQuiz) else
  quiz <- getitem response "quiz" ;;
  qs <- iter quiz ;;
  validate_questions 0 qs ;;;
  Ok true.

(** The questions a response carries: [response['quiz']], as the loop of
    [validate_quiz_json] visits it. *)
Definition questions_of (response : value) : result (list value) :=
  quiz <- getitem response "quiz" ;; iter quiz.

(** Index of an answer letter among the options: [ord(letter) - ord('A')]. *)
Definition letter_index (letter : string) : option nat :=
  match letter with
  | String c EmptyString =>
      let n := nat_of_ascii c in
      if (65 <=? n) && (n <=? 68) then Some (n - 65) else None
  | _ => None
  end.

End Validation.

Import Validation.

(* ===================================================================== *)
(** ** Quiz generation with retries: [generate_quiz]                     *)
(* ===================================================================== *)

Module Generation.

(** The variables substituted in the prompt. *)
Record prompt_inputs : Type := {
  pi_title : string;
  pi_content : string;
  pi_num_questions : nat
}.

Section Chain.

(** [chain = prompt | llm | JsonOutputParser()]: what the [attempt]-th
    call of [chain.invoke] gives for these inputs, parsed JSON or the
    exception of the model call or of the parser. *)
Variable chain_invoke : prompt_inputs -> nat -> result value.
Variable truncate_content : string -> string.
(** The validator called on each result. *)
Variable validate_quiz_structure : value -> result bool.

(** The [try] block of one attempt. *)
Definition attempt_once (content title : string) (num_questions attempt : nat)
  : result value :=
  result_ <- chain_invoke {| pi_title := title;
                             pi_content := truncate_content content;
                             pi_num_questions := num_questions |} attempt ;;
  validate_quiz_structure result_ ;;;
  Ok result_.

(** [for attempt in range(3)]: return on success, re-raise on the
    attempt numbered 2, continue otherwise; a loop that ends without
    returning makes the function return [None]. *)
Fixpoint retry_loop (content title : string) (num_questions : nat)
         (range : list nat) : result value :=
  match range with
  | [] => Ok VNone
  | attempt :: rest =>
      match attempt_once content title num_questions attempt with
      | Ok result_ => Ok result_
      | Raise e =>
          if attempt =? 2 then Raise e
          else retry_loop content title num_questions rest
      end
  end.

Definition generate_quiz (content title : string) (num_questions : nat)
  : result value :=
  retry_loop content title num_questions (seq 0 3).

End Chain.

End Generation.

Import Generation.

(* ===================================================================== *)
(** ** The logger and the heap the post-processing steps work on         *)
(* ===================================================================== *)

Module Logging.

(** One call of [logger.warning(f"...")]: the literal text of the f-string,
    with [{}] where a value is interpolated, and the interpolated values. *)
Inductive log_record : Type :=
| Warning (template : string) (args : list value).

Definition logger := list log_record.

Definition low_grounding (question_text : value) : log_record :=
  Warning "Low grounding score for question: {}" [question_text].

Definition very_similar (i j : nat) : log_record :=
  Warning "Questions {} and {} are very similar" [VInt (Z.of_nat i); VInt (Z.of_nat j)].

End Logging.

Import Logging.

(* ===================================================================== *)
(** ** Content validation: [validate_question_grounding]                 *)
(* ===================================================================== *)

Module Grounding.

(** [len(grounded_terms) / len(question_terms) < 0.5].  Both lengths are
    small integers, the quotient is correctly rounded and 0.5 is a double, so
    the test is [2 * grounded < terms]; a zero divisor raises. *)
Definition low_score (grounded terms : nat) : result bool :=
  if terms =? 0 then Raise ZeroDivisionError else Ok (2 * grounded <? terms).

Section Terms.

(** [s.lower()], the lower-casing of Python, which covers every cased
    character of Unicode.  A text is kept as the bytes of its UTF-8
    encoding, on which [a in b] is the search of one byte sequence in the
    other. *)
Variable str_lower : string -> string.

(** [extract_key_terms], used but not defined by the design. *)
Variable extract_key_terms : value -> result (list string).

(** [[term for term in question_terms if term.lower() in article_text.lower()]] *)
Definition grounded_terms (question_terms : list string) (article_text : string)
  : list string :=
  filter (fun term => str_contains (str_lower term) (str_lower article_text))
         question_terms.

(** The function reads the question, may write one record to the logger and
    returns [True]; it has no other effect. *)
Definition validate_question_grounding
  (question : value) (article_text : string) (log : logger)
  : result bool * logger :=
  match (text <- getitem question "question" ;;
         question_terms <- extract_key_terms text ;;
         low <- low_score (List.length (grounded_terms question_terms article_text))
                          (List.length question_terms) ;;
         Ok (text, low)) with
  | Raise e => (Raise e, log)
  | Ok (text, true) => (Ok true, log ++ [low_grounding text])
  | Ok (_, false) => (Ok true, log)
  end.

End Terms.

End Grounding.

Import Grounding.

(* ===================================================================== *)
(** ** Duplicate detection: [check_duplicate_questions]                  *)
(* ===================================================================== *)

Module Duplicates.

(** The list object [questions], mutated in place by [pop], and the logger. *)
Record heap : Type := {
  questions : list value;
  log : logger
}.

Section Similarity.

(** [SequenceMatcher(None, x, y).ratio() > 0.8] (Python's [difflib]). *)
Variable ratio_exceeds : value -> value -> result bool.

(** The inner loop, [for j, q2 in enumerate(questions[i+1:], start=i+1)],
    runs over the slice taken when it starts; [j] counts positions of that
    snapshot, while [questions.pop(j)] indexes the list as it is now. *)
Fixpoint inner_loop (i : nat) (q1 : value) (slice : list value) (j : nat)
         (st : heap) : result unit * heap :=
  match slice with
  | [] => (Ok tt, st)
  | q2 :: rest =>
      match (t1 <- getitem q1 "question" ;;
             t2 <- getitem q2 "question" ;;
             ratio_exceeds t1 t2) with
      | Raise e => (Raise e, st)
      | Ok false => inner_loop i q1 rest (S j) st
      | Ok true =>
          let logged := log st ++ [very_similar i j] in
          match pop j (questions st) with
          | Raise e => (Raise e, {| questions := questions st; log := logged |})
          | Ok popped =>
              inner_loop i q1 rest (S j) {| questions := popped; log := logged |}
          end
      end
  end.

(** The outer loop, [for i, q1 in enumerate(questions)], iterates the list
    object itself: it stops when [i] reaches the current length.  [fuel]
    bounds the number of iterations; the length of the list on entry is
    always enough (the list never grows). *)
Fixpoint outer_loop (fuel i : nat) (st : heap) : result unit * heap :=
  match fuel with
  | 0 => (Ok tt, st)
  | S fuel' =>
      match nth_error (questions st) i with
      | None => (Ok tt, st)
      | Some q1 =>
          match inner_loop i q1 (skipn (S i) (questions st)) (S i) st with
          | (Raise e, st') => (Raise e, st')
          | (Ok _, st') => outer_loop fuel' (S i) st'
          end
      end
  end.

(** Returns the (mutated) list; on an exception the heap still shows what
    was popped before. *)
Definition check_duplicate_questions (qs : list value) (lg : logger)
  : result (list value) * heap :=
  match outer_loop (List.length qs) 0 {| questions := qs; log := lg |} with
  | (Ok _, st) => (Ok (questions st), st)
  | (Raise e, st) => (Raise e, st)
  end.

(** The list the function returns, when it returns. *)
Definition suppressed (qs : list value) : result (list value) :=
  fst (check_duplicate_questions qs []).

End Similarity.

End Duplicates.

Import Duplicates.

(* ===================================================================== *)
(** ** [difflib.SequenceMatcher] on text, as [check_duplicate_questions]
       calls it: no junk function, [autojunk] left on                     *)
(* ===================================================================== *)

Module Difflib.

Section Matcher.

Variables a b : list ascii.

(** Elements of [b] purged from [b2j]: with at least 200 elements, those
    occurring more than [n // 100 + 1] times. *)
Definition popular (y : ascii) : bool :=
  let n := List.length b in
  if 200 <=? n then n / 100 + 1 <? List.length (filter (Ascii.eqb y) b) else false.

Definition pair_match (x y : ascii) : bool :=
  Ascii.eqb x y && negb (popular y).

(** One round of [for j in b2j.get(a[i], nothing)]: [newj2len] from [j2len],
    both laid out over [b[blo:bhi]]; [diag] is [j2len.get(j-1, 0)]. *)
Fixpoint next_row (x : ascii) (bs : list ascii) (j2len : list nat) (diag : nat)
  : list nat :=
  match bs, j2len with
  | y :: bs', prev :: j2len' =>
      (if pair_match x y then S diag else 0) :: next_row x bs' j2len' prev
  | _, _ => []
  end.

(** [if k > bestsize: besti, bestj, bestsize = i-k+1, j-k+1, k] *)
Fixpoint scan_row (i j : nat) (row : list nat) (best : nat * nat * nat)
  : nat * nat * nat :=
  match row with
  | [] => best
  | k :: rest =>
      scan_row i (S j) rest
               (if snd best <? k then (i + 1 - k, j + 1 - k, k) else best)
  end.

Fixpoint scan_rows (i : nat) (as_ bs : list ascii) (blo : nat) (j2len : list nat)
         (best : nat * nat * nat) : nat * nat * nat :=
  match as_ with
  | [] => best
  | x :: rest =>
      let newj2len := next_row x bs j2len 0 in
      scan_rows (S i) rest bs blo newj2len (scan_row i blo newj2len best)
  end.

Definition same_at (i j : nat) : bool :=
  match nth_error a i, nth_error b j with
  | Some x, Some y => Ascii.eqb x y
  | _, _ => false
  end.

(** The two [while] loops that extend the block (no element is junk). *)
Fixpoint extend_left (n alo blo : nat) (best : nat * nat * nat) : nat * nat * nat :=
  match n with
  | 0 => best
  | S n' =>
      let '(besti, bestj, bestsize) := best in
      if (alo <? besti) && (blo <? bestj) && same_at (besti - 1) (bestj - 1)
      then extend_left n' alo blo (besti - 1, bestj - 1, S bestsize)
      else best
  end.

Fixpoint extend_right (n ahi bhi : nat) (best : nat * nat * nat) : nat * nat * nat :=
  match n with
  | 0 => best
  | S n' =>
      let '(besti, bestj, bestsize) := best in
      if (besti + bestsize <? ahi) && (bestj + bestsize <? bhi)
         && same_at (besti + bestsize) (bestj + bestsize)
      then extend_right n' ahi bhi (besti, bestj, S bestsize)
      else best
  end.

Definition find_longest_match (alo ahi blo bhi : nat) : nat * nat * nat :=
  let as_ := firstn (ahi - alo) (skipn alo a) in
  let bs := firstn (bhi - blo) (skipn blo b) in
  let best := scan_rows alo as_ bs blo (repeat 0 (List.length bs)) (alo, blo, 0) in
  extend_right ahi ahi bhi (extend_left ahi alo blo best).

(** Total size of the blocks [get_matching_blocks] collects below
    [(alo, ahi, blo, bhi)].  Each level strictly shrinks the range of [a];
    [None] stands for a run that needs more than [fuel] levels. *)
Fixpoint matched (fuel alo ahi blo bhi : nat) : option nat :=
  match fuel with
  | 0 => None
  | S fuel' =>
      let '(i, j, k) := find_longest_match alo ahi blo bhi in
      if k =? 0 then Some 0
      else
        match (if (alo <? i) && (blo <? j) then matched fuel' alo i blo j else Some 0),
              (if (i + k <? ahi) && (j + k <? bhi)
               then matched fuel' (i + k) ahi (j + k) bhi else Some 0) with
        | Some before, Some after => Some (k + before + after)
        | _, _ => None
        end
  end.

Definition matches : option nat :=
  matched (S (List.length a)) 0 (List.length a) 0 (List.length b).

End Matcher.

(** [ratio() > 0.8] with [ratio = 2.0 * matches / length], and 1.0 when
    [length] is 0: on these sizes the float test is [5 * matches > 2 * length]. *)
Definition ratio_gt_0_8 (s1 s2 : string) : option bool :=
  let a := list_ascii_of_string s1 in
  let b := list_ascii_of_string s2 in
  let length := List.length a + List.length b in
  if length =? 0 then Some true
  else match matches a b with
       | Some m => Some (2 * length <? 5 * m)
       | None => None
       end.

(** The call on two values; only text is compared here. *)
Definition ratio_exceeds (x y : value) : result bool :=
  match x, y with
  | VStr s1, VStr s2 =>
      match ratio_gt_0_8 s1 s2 with
      | Some b => Ok b
      | None => Raise (OtherError "out of fuel")
      end
  | _, _ => Raise TypeError
  end.

End Difflib.


(* ===================================================================== *)
(** ** The storage and the pipeline around the generation stages, as the
       specification describes them                                      *)
(* ===================================================================== *)

Module Backend.

(** The database service ([database.py]), the scraper ([scraper.py]) and
    the route of [POST /api/quiz/generate] ([routes/quiz.py]) are not among
    the sources: the design lists their functions with an outline in prose
    and gives the tables of the schema.  What follows takes the rows from
    that schema and everything else from the words of the specification.
    The cache the design gives in code, keyed by the URL as submitted, is
    embedded in [Cache]; the sources do not connect it to the route. *)

(** Modelled from the spec: the kinds of [ExtractionError] of its section
    4.1; the scraper that raises them is missing. *)
Inductive extraction_kind : Type := InvalidUrl | Unreachable | Blocked | Empty.

(** Modelled from the spec: the error taxonomy of its section 7; the route
    that reports the errors is missing. *)
Inductive error : Type :=
| ExtractionError (kind : extraction_kind)
| GenerationError (stage reason : string)
| ValidationError
| DuplicateUrl
| PersistenceError.

Inductive outcome (A : Type) : Type :=
| Done (a : A)
| Failed (e : error).
Arguments Done {A} a.
Arguments Failed {A} e.

(** [entity_type], an ENUM of the schema. *)
Inductive entity_type : Type := people | organizations | locations.

(** Modelled from the spec: the Article of its data model, what the
    extractor hands on; the scraper is missing. *)
Record article : Type := {
  title : string;
  full_text : string;
  sections : list (string * string);
  word_count : nat
}.

(** A question as stored: the columns of table [questions] but the keys. *)
Record question_data : Type := {
  question_text : string;
  option_a : string;
  option_b : string;
  option_c : string;
  option_d : string;
  correct_answer : string;
  difficulty : string;
  explanation : string
}.

(** Modelled from the spec: the validated QuizBundle that is handed to the
    Persistence Coordinator ([save_quiz_to_db(quiz_data)], whose body is
    missing): source URL, title, summary, sections, entities, questions
    and related topics. *)
Record quiz_data : Type := {
  qd_url : string;
  qd_title : string;
  qd_summary : string;
  qd_sections : list string;
  qd_key_entities : list (entity_type * string);
  qd_quiz : list question_data;
  qd_related_topics : list (string * option string)
}.

(** Rows of the four tables of the schema (timestamps and [raw_html] left
    out). *)
Record quiz_row : Type := {
  quiz_id : nat;
  quiz_url : string;
  quiz_title : string;
  quiz_summary : string;
  quiz_sections : list string
}.

Record entity_row : Type := {
  entity_id : nat;
  entity_quiz_id : nat;
  entity_kind : entity_type;
  entity_name : string
}.

Record question_row : Type := {
  question_id : nat;
  question_quiz_id : nat;
  question_columns : question_data
}.

Record topic_row : Type := {
  topic_id : nat;
  topic_quiz_id : nat;
  topic_name : string;
  topic_url : option string
}.

Record tables : Type := {
  quizzes : list quiz_row;
  key_entities : list entity_row;
  questions : list question_row;
  related_topics : list topic_row
}.

Definition empty_tables : tables :=
  {| quizzes := []; key_entities := []; questions := []; related_topics := [] |}.

(** Modelled from the spec: "a conventional relational store" with atomic
    transactions; the storage engine is missing.  A connection holds what
    every reader sees ([committed]) and, while a transaction is open, the
    private state its statements work on. *)
Record connection : Type := {
  committed : tables;
  pending : option tables
}.

(** Modelled from the spec: the writes of the Persistence Coordinator, "the
    parent record and all child collections (entities, questions, related
    topics)", and the commit; any of them may fail. *)
Inductive statement : Type :=
| InsertQuiz | InsertEntities | InsertQuestions | InsertTopics | Commit.

(** Modelled from the spec: the key of the lookup, "the normalized URL
    (scheme+host+path, trailing slash normalized)": the URL without query
    and fragment and without a slash at its end.  The code that computes
    the key is missing. *)
Fixpoint spec_strip_query (url : string) : string :=
  match url with
  | EmptyString => EmptyString
  | String c rest =>
      if (Ascii.eqb c "?" || Ascii.eqb c "#")%char then EmptyString
      else String c (spec_strip_query rest)
  end.

(** Modelled from the spec: "trailing slash normalized": a slash at the end
    of the URL is left out. *)
Fixpoint spec_strip_slash (url : string) : string :=
  match url with
  | EmptyString => EmptyString
  | String c rest =>
      match rest with
      | EmptyString => if Ascii.eqb c "/" then EmptyString else url
      | _ => String c (spec_strip_slash rest)
      end
  end.

(** Modelled from the spec: the normalized URL, the key of the lookup and
    of the unique constraint. *)
Definition spec_normalized_url (url : string) : string :=
  spec_strip_slash (spec_strip_query url).

(** [AUTO_INCREMENT] of the schema: one more than the largest key in use. *)
Definition next_id (ids : list nat) : nat := S (list_max ids).

(** Rows numbered from [first] on. *)
Fixpoint number_rows {A R : Type} (mk : nat -> A -> R) (first : nat) (l : list A)
  : list R :=
  match l with
  | [] => []
  | x :: rest => mk first x :: number_rows mk (S first) rest
  end.

(** Modelled from the spec: the write of the parent record, which gets the
    next key; [database.py] is missing. *)
Definition insert_quiz (d : quiz_data) (t : tables) : nat * tables :=
  let id := next_id (map quiz_id (quizzes t)) in
  (id, {| quizzes := quizzes t ++ [{| quiz_id := id; quiz_url := qd_url d;
                                     quiz_title := qd_title d;
                                     quiz_summary := qd_summary d;
                                     quiz_sections := qd_sections d |}];
          key_entities := key_entities t;
          questions := questions t;
          related_topics := related_topics t |}).

(** Modelled from the spec: the child rows of a bundle, one per entity,
    question and related topic, in the order of the bundle, with the key of
    the parent; [database.py] is missing. *)
Definition entity_rows (id first : nat) (d : quiz_data) : list entity_row :=
  number_rows (fun n e => {| entity_id := n; entity_quiz_id := id;
                             entity_kind := fst e; entity_name := snd e |})
              first (qd_key_entities d).

Definition question_rows (id first : nat) (d : quiz_data) : list question_row :=
  number_rows (fun n q => {| question_id := n; question_quiz_id := id;
                             question_columns := q |})
              first (qd_quiz d).

Definition topic_rows (id first : nat) (d : quiz_data) : list topic_row :=
  number_rows (fun n tp => {| topic_id := n; topic_quiz_id := id;
                              topic_name := fst tp; topic_url := snd tp |})
              first (qd_related_topics d).

(** Modelled from the spec: the writes of the three child collections
    ([insert_entities], [insert_questions], [insert_topics]), each appending
    the child rows of the bundle to its table; [database.py] is missing. *)
Definition insert_entities (id : nat) (d : quiz_data) (t : tables) : tables :=
  {| quizzes := quizzes t;
     key_entities := key_entities t
                     ++ entity_rows id (next_id (map entity_id (key_entities t))) d;
     questions := questions t;
     related_topics := related_topics t |}.

Definition insert_questions (id : nat) (d : quiz_data) (t : tables) : tables :=
  {| quizzes := quizzes t;
     key_entities := key_entities t;
     questions := questions t
                  ++ question_rows id (next_id (map question_id (questions t))) d;
     related_topics := related_topics t |}.

Definition insert_topics (id : nat) (d : quiz_data) (t : tables) : tables :=
  {| quizzes := quizzes t;
     key_entities := key_entities t;
     questions := questions t;
     related_topics := related_topics t
                       ++ topic_rows id (next_id (map topic_id (related_topics t))) d |}.

(** Modelled from the spec: the persisted bundle, "the complete bundle with
    generated identifiers": the parent row joined with its child rows. *)
Record quiz_object : Type := {
  qo_quiz : quiz_row;
  qo_entities : list entity_row;
  qo_questions : list question_row;
  qo_topics : list topic_row
}.

(** Modelled from the spec: [fetchById(id)], a read of the committed
    tables ([get_quiz_by_id] of [database.py], which is missing). *)
Definition get_quiz_by_id (id : nat) (t : tables) : option quiz_object :=
  match find (fun r => quiz_id r =? id) (quizzes t) with
  | None => None
  | Some r =>
      Some {| qo_quiz := r;
              qo_entities := filter (fun e => entity_quiz_id e =? id) (key_entities t);
              qo_questions := filter (fun q => question_quiz_id q =? id) (questions t);
              qo_topics := filter (fun tp => topic_quiz_id tp =? id) (related_topics t) |}
  end.

(** Modelled from the spec: the row of a URL is the one whose URL has the
    same normalized form, compared as strings. *)
Definition same_normalized_url (url : string) (r : quiz_row) : bool :=
  String.eqb (spec_normalized_url (quiz_url r)) (spec_normalized_url url).

(** Modelled from the spec: the Duplicate-URL Resolver,
    [findByNormalizedUrl(url)]: "existing QuizBundle id if found, else
    none", by "exact-string match on the normalized URL"
    ([check_duplicate_url] of [database.py], which is missing). *)
Definition check_duplicate_url (url : string) (t : tables) : option nat :=
  match find (same_normalized_url url) (quizzes t) with
  | Some r => Some (quiz_id r)
  | None => None
  end.

Section Storage.

(** Modelled from the spec: which statements the storage fails on
    ([PersistenceError]); the storage engine is missing. *)
Variable fault : statement -> bool.

(** Modelled from the spec: a statement inside the open transaction works
    on the private state only. *)
Definition exec {A : Type} (s : statement) (run : tables -> A * tables)
           (c : connection) : outcome A * connection :=
  match pending c with
  | None => (Failed PersistenceError, c)
  | Some t =>
      if fault s then (Failed PersistenceError, c)
      else let (a, t') := run t in
           (Done a, {| committed := committed c; pending := Some t' |})
  end.

(** Modelled from the spec: "a single atomic transaction": begin, and then
    either commit, which shows the private state to every reader, or roll
    back, which drops it. *)
Definition begin (c : connection) : connection :=
  {| committed := committed c; pending := Some (committed c) |}.

(** Modelled from the spec: the end of a transaction that failed; what it
    wrote is dropped. *)
Definition rollback (c : connection) : connection :=
  {| committed := committed c; pending := None |}.

(** Modelled from the spec: the end of a transaction that went through;
    the commit itself may fail. *)
Definition commit (c : connection) : outcome unit * connection :=
  match pending c with
  | None => (Failed PersistenceError, c)
  | Some t =>
      if fault Commit then (Failed PersistenceError, c)
      else (Done tt, {| committed := t; pending := None |})
  end.

(** Modelled from the spec: the write of the parent record under the
    "unique constraint on normalized URL", which "enforces this at the
    storage boundary": a second writer fails with [DuplicateUrl]. *)
Definition exec_insert_quiz (d : quiz_data) (c : connection)
  : outcome nat * connection :=
  match pending c with
  | None => (Failed PersistenceError, c)
  | Some t =>
      if existsb (same_normalized_url (qd_url d)) (quizzes t)
      then (Failed DuplicateUrl, c)
      else exec InsertQuiz (insert_quiz d) c
  end.

(** Modelled from the spec: the writes of the Persistence Coordinator up to
    the commit, inside the open transaction: the parent record, then the
    child collections. *)
Definition write_quiz (d : quiz_data) (c : connection) : outcome nat * connection :=
  match exec_insert_quiz d c with
  | (Failed e, c1) => (Failed e, c1)
  | (Done id, c1) =>
      match exec InsertEntities (fun t => (tt, insert_entities id d t)) c1 with
      | (Failed e, c2) => (Failed e, c2)
      | (Done _, c2) =>
          match exec InsertQuestions (fun t => (tt, insert_questions id d t)) c2 with
          | (Failed e, c3) => (Failed e, c3)
          | (Done _, c3) =>
              match exec InsertTopics (fun t => (tt, insert_topics id d t)) c3 with
              | (Failed e, c4) => (Failed e, c4)
              | (Done _, c4) =>
                  match commit c4 with
                  | (Failed e, c5) => (Failed e, c5)
                  | (Done _, c5) => (Done id, c5)
                  end
              end
          end
      end
  end.

(** Modelled from the spec: the Persistence Coordinator, [persist(bundle)]:
    it "writes the parent record and all child collections (entities,
    questions, related topics) as a single atomic unit" and "returns the
    complete bundle with generated identifiers"; on a failure the
    transaction is rolled back.  The design outlines the function as
    [save_quiz_to_db] (create transaction, insert into [quizzes], get the
    id, batch insert the children, commit or rollback on error, return the
    complete quiz object); its body, in [database.py], is missing. *)
Definition save_quiz_to_db (d : quiz_data) (c : connection)
  : outcome quiz_object * connection :=
  match write_quiz d (begin c) with
  | (Failed e, c') => (Failed e, rollback c')
  | (Done id, c') =>
      match get_quiz_by_id id (committed c') with
      | Some q => (Done q, c')
      | None => (Failed PersistenceError, c')
      end
  end.

End Storage.

(** Modelled from the spec: what the extraction collaborator and the
    clean-up of the fetched page give for a URL: a failure of one of the
    kinds, or the cleaned article with its word count.  The scraper is
    missing. *)
Inductive fetched : Type :=
| NotFetched (kind : extraction_kind)
| Cleaned (a : article).

(** Modelled from the spec: what a run of the pipeline works with besides
    the storage: the page behind a URL at the time of the run, the stages
    between extraction and persistence (Normalizer, the four generation
    stages, Validator and Repair), which give the validated bundle or fail,
    and the failures of the storage.  Their code is missing or, for the
    steps embedded above, not connected to a route by the sources. *)
Record collaborators : Type := {
  fetch : string -> fetched;
  stages : article -> nat -> outcome quiz_data;
  storage_fault : statement -> bool
}.

(** Modelled from the spec: the bundle of a run has the URL of the request
    as its source URL. *)
Definition with_url (url : string) (d : quiz_data) : quiz_data :=
  {| qd_url := url; qd_title := qd_title d; qd_summary := qd_summary d;
     qd_sections := qd_sections d; qd_key_entities := qd_key_entities d;
     qd_quiz := qd_quiz d; qd_related_topics := qd_related_topics d |}.

(** Modelled from the spec: the default of the "configurable minimum" of
    the cleaned word count.  (The outline of the route in the design asks
    for more than 500 words, its error message for 300.) *)
Definition default_min_words : nat := 300.

Section Pipeline.

Variable min_words : nat.

(** Modelled from the spec: the Content Extractor, which gives "an Article
    or a fails-with [ExtractionError{kind}]" and "must reject content whose
    cleaned word count is below a configurable minimum (default 300) with
    [Empty]".  The scraper is missing. *)
Definition extract_content (w : collaborators) (url : string) : outcome article :=
  match fetch w url with
  | NotFetched kind => Failed (ExtractionError kind)
  | Cleaned art =>
      if word_count art <? min_words then Failed (ExtractionError Empty)
      else Done art
  end.

(** Modelled from the spec: the control flow of [generate(url,
    numQuestions)]: "URL -> Duplicate-URL Resolver (may short-circuit) ->
    Content Extractor -> ... -> Persistence Coordinator -> returned
    bundle", where "a cache hit short-circuits the entire pipeline and
    returns the stored bundle".  The route is missing; the design outlines
    it in the same order (check for duplicate in database, scrape, check
    the minimum, generate, save, respond). *)
Definition generate (w : collaborators) (url : string) (numQuestions : nat)
           (c : connection) : outcome quiz_object * connection :=
  match check_duplicate_url url (committed c) with
  | Some id =>
      match get_quiz_by_id id (committed c) with
      | Some q => (Done q, c)
      | None => (Failed PersistenceError, c)
      end
  | None =>
      match extract_content w url with
      | Failed e => (Failed e, c)
      | Done art =>
          match stages w art numQuestions with
          | Failed e => (Failed e, c)
          | Done d => save_quiz_to_db (storage_fault w) (with_url url d) c
          end
      end
  end.

(** Modelled from the spec: one call of [generate(url, numQuestions)],
    with what the run finds at the time it is served. *)
Record request : Type := {
  world : collaborators;
  req_url : string;
  req_questions : nat
}.

(** Modelled from the spec: requests served one after the other, each on
    the storage the one before has left. *)
Fixpoint serve (requests : list request) (c : connection) : connection :=
  match requests with
  | [] => c
  | r :: rest => serve rest (snd (generate (world r) (req_url r) (req_questions r) c))
  end.

(** The content behind the URL was below the minimum, or not to be had,
    whenever one of the requests asked for a URL with the same normalized
    form. *)
Definition short_so_far (url : string) (requests : list request) : Prop :=
  forall r art,
    In r requests ->
    spec_normalized_url (req_url r) = spec_normalized_url url ->
    fetch (world r) (req_url r) = Cleaned art ->
    word_count art < min_words.

End Pipeline.

(** No bundle is stored under the normalized form of the URL. *)
Definition not_stored (url : string) (t : tables) : Prop :=
  existsb (same_normalized_url url) (quizzes t) = false.

(** What a complete save adds to the tables for the bundle [d]: the parent
    row with the fields of the bundle under a key that was not in use, and
    one child row for each entity, question and related topic, in order and
    with the same content, all carrying the key of the parent. *)
Definition bundle_added (d : quiz_data) (before after : tables) (parent : quiz_row)
  : Prop :=
  ~ In (quiz_id parent) (map quiz_id (quizzes before))
  /\ parent = {| quiz_id := quiz_id parent; quiz_url := qd_url d;
                quiz_title := qd_title d; quiz_summary := qd_summary d;
                quiz_sections := qd_sections d |}
  /\ quizzes after = quizzes before ++ [parent]
  /\ exists es qs ts,
       key_entities after = key_entities before ++ es
       /\ map (fun e => (entity_quiz_id e, entity_kind e, entity_name e)) es
          = map (fun x => (quiz_id parent, fst x, snd x)) (qd_key_entities d)
       /\ questions after = questions before ++ qs
       /\ map (fun q => (question_quiz_id q, question_columns q)) qs
          = map (fun x => (quiz_id parent, x)) (qd_quiz d)
       /\ related_topics after = related_topics before ++ ts
       /\ map (fun tp => (topic_quiz_id tp, topic_name tp, topic_url tp)) ts
          = map (fun x => (quiz_id parent, fst x, snd x)) (qd_related_topics d).

End Backend.

(* ===================================================================== *)
(** ** The caching feature: [get_cached_quiz] and [cache_quiz]           *)
(* ===================================================================== *)

Module Cache.

(** One Redis entry: key, serialized value, time at which it expires. *)
Record entry : Type := {
  entry_key : string;
  entry_value : value;
  entry_expiry : Z
}.

Definition redis := list entry.

(** [redis_client.get(key)] at time [now]: the latest entry set under the
    key, unless it has expired. *)
Definition redis_get (key : string) (now : Z) (store : redis) : option value :=
  match find (fun e => String.eqb (entry_key e) key) store with
  | Some e => if (now <? entry_expiry e)%Z then Some (entry_value e) else None
  | None => None
  end.

Section Client.

(** [hashlib.md5(url.encode()).hexdigest()] *)
Variable md5_hexdigest : string -> string.

(** Whether an expire time in seconds is beyond what the clock of the Redis
    server can hold. *)
Variable expire_too_large : Z -> bool.

(** [redis_client.setex(key, ttl, value)] at time [now].  The server
    refuses an expire time that is zero, negative or too large with
    "invalid expire time"; the client then raises and nothing is stored. *)
Definition redis_setex (key : string) (ttl : Z) (v : value) (now : Z)
           (store : redis) : result unit * redis :=
  if (0 <? ttl)%Z && negb (expire_too_large ttl)
  then (Ok tt,
        {| entry_key := key; entry_value := v; entry_expiry := (now + ttl)%Z |} :: store)
  else (Raise (OtherError "invalid expire time in 'setex' command"), store).

Definition cache_key (url : string) : string := "quiz:" ++ md5_hexdigest url.

(** [json.loads(json.dumps(quiz_data))] is taken to give [quiz_data] back. *)
Definition get_cached_quiz (url : string) (now : Z) (store : redis) : option value :=
  redis_get (cache_key url) now store.

(** The outcome of the call and the store after it. *)
Definition cache_quiz (url : string) (quiz_data_ : value) (ttl now : Z)
           (store : redis) : result unit * redis :=
  redis_setex (cache_key url) ttl quiz_data_ now store.

Definition default_ttl : Z := 86400.

(** One call of [cache_quiz]: its arguments and the time of the call. *)
Record caching : Type := {
  cached_url : string;
  cached_data : value;
  cached_ttl : Z;
  cached_at : Z
}.

(** The store after the calls, in their order. *)
Fixpoint cache_all (calls : list caching) (store : redis) : redis :=
  match calls with
  | [] => store
  | call :: rest =>
      cache_all rest (snd (cache_quiz (cached_url call) (cached_data call)
                                      (cached_ttl call) (cached_at call) store))
  end.

End Client.

End Cache.

(* ===================================================================== *)
(** ** [hashlib.md5]: the MD5 digest of RFC 1321                         *)
(* ===================================================================== *)

Module Md5.

Local Open Scope Z_scope.

(** Arithmetic on 32-bit words. *)
Definition word (x : Z) : Z := x mod 4294967296.

Definition leftrotate (x c : Z) : Z :=
  word (Z.lor (Z.shiftl x c) (Z.shiftr x (32 - c))).

Definition complement (x : Z) : Z := Z.lxor x 0xffffffff.

(** The shift of each of the 64 operations, and the constants
    [floor(2^32 * abs(sin(i + 1)))]. *)
Definition shifts : list Z :=
  [7; 12; 17; 22; 7; 12; 17; 22; 7; 12; 17; 22; 7; 12; 17; 22;
   5; 9; 14; 20; 5; 9; 14; 20; 5; 9; 14; 20; 5; 9; 14; 20;
   4; 11; 16; 23; 4; 11; 16; 23; 4; 11; 16; 23; 4; 11; 16; 23;
   6; 10; 15; 21; 6; 10; 15; 21; 6; 10; 15; 21; 6; 10; 15; 21].

Definition sines : list Z :=
  [0xd76aa478; 0xe8c7b756; 0x242070db; 0xc1bdceee;
   0xf57c0faf; 0x4787c62a; 0xa8304613; 0xfd469501;
   0x698098d8; 0x8b44f7af; 0xffff5bb1; 0x895cd7be;
   0x6b901122; 0xfd987193; 0xa679438e; 0x49b40821;
   0xf61e2562; 0xc040b340; 0x265e5a51; 0xe9b6c7aa;
   0xd62f105d; 0x02441453; 0xd8a1e681; 0xe7d3fbc8;
   0x21e1cde6; 0xc33707d6; 0xf4d50d87; 0x455a14ed;
   0xa9e3e905; 0xfcefa3f8; 0x676f02d9; 0x8d2a4c8a;
   0xfffa3942; 0x8771f681; 0x6d9d6122; 0xfde5380c;
   0xa4beea44; 0x4bdecfa9; 0xf6bb4b60; 0xbebfbc70;
   0x289b7ec6; 0xeaa127fa; 0xd4ef3085; 0x04881d05;
   0xd9d4d039; 0xe6db99e5; 0x1fa27cf8; 0xc4ac5665;
   0xf4292244; 0x432aff97; 0xab9423a7; 0xfc93a039;
   0x655b59c3; 0x8f0ccc92; 0xffeff47d; 0x85845dd1;
   0x6fa87e4f; 0xfe2ce6e0; 0xa3014314; 0x4e0811a1;
   0xf7537e82; 0xbd3af235; 0x2ad7d2bb; 0xeb86d391].

(** [s.encode()]: a text is kept as the bytes of its encoding. *)
Definition bytes_of (s : string) : list Z :=
  map (fun c => Z.of_nat (nat_of_ascii c)) (list_ascii_of_string s).

(** [n] as [k] bytes, least significant first. *)
Fixpoint little_endian (k : nat) (n : Z) : list Z :=
  match k with
  | O => []
  | S k' => n mod 256 :: little_endian k' (n / 256)
  end.

(** The message, the byte 0x80, zeros up to a length of 56 modulo 64, and
    the length of the message in bits as 8 bytes. *)
Definition padded (message : list Z) : list Z :=
  let n := Z.of_nat (List.length message) in
  message ++ [0x80] ++ repeat 0 (Z.to_nat ((55 - n) mod 64))
          ++ little_endian 8 ((8 * n) mod 18446744073709551616).

(** Four bytes to one word, least significant first. *)
Fixpoint words_of (fuel : nat) (bytes : list Z) : list Z :=
  match fuel, bytes with
  | S fuel', b0 :: b1 :: b2 :: b3 :: rest =>
      (b0 + 256 * b1 + 65536 * b2 + 16777216 * b3) :: words_of fuel' rest
  | _, _ => []
  end.

Record digest_state : Type := { a0 : Z; b0 : Z; c0 : Z; d0 : Z }.

Definition initial : digest_state :=
  {| a0 := 0x67452301; b0 := 0xefcdab89; c0 := 0x98badcfe; d0 := 0x10325476 |}.

(** Operation [i] of the 64 on a block [m] of 16 words. *)
Definition operation (m : list Z) (st : digest_state) (i : nat) : digest_state :=
  let '(a, b, c, d) := (a0 st, b0 st, c0 st, d0 st) in
  let '(f, g) :=
    if (i <? 16)%nat then (Z.lor (Z.land b c) (Z.land (complement b) d), i)
    else if (i <? 32)%nat
         then (Z.lor (Z.land d b) (Z.land (complement d) c), ((5 * i + 1) mod 16)%nat)
    else if (i <? 48)%nat then (Z.lxor (Z.lxor b c) d, ((3 * i + 5) mod 16)%nat)
    else (Z.lxor c (Z.lor b (complement d)), ((7 * i) mod 16)%nat) in
  let f := word (f + a + nth i sines 0 + nth g m 0) in
  {| a0 := d; d0 := c; c0 := b; b0 := word (b + leftrotate f (nth i shifts 0)) |}.

Definition block (st : digest_state) (m : list Z) : digest_state :=
  let r := fold_left (operation m) (seq 0 64) st in
  {| a0 := word (a0 st + a0 r); b0 := word (b0 st + b0 r);
     c0 := word (c0 st + c0 r); d0 := word (d0 st + d0 r) |}.

Fixpoint blocks (fuel : nat) (words : list Z) (st : digest_state) : digest_state :=
  match fuel, words with
  | S fuel', _ :: _ => blocks fuel' (skipn 16 words) (block st (firstn 16 words))
  | _, _ => st
  end.

Definition hex_digit (n : Z) : ascii :=
  if n <? 10 then ascii_of_nat (Z.to_nat (48 + n)) else ascii_of_nat (Z.to_nat (87 + n)).

Fixpoint hex (bytes : list Z) : string :=
  match bytes with
  | [] => EmptyString
  | b :: rest => String (hex_digit (b / 16)) (String (hex_digit (b mod 16)) (hex rest))
  end.

(** [hashlib.md5(s.encode()).hexdigest()] *)
Definition hexdigest (s : string) : string :=
  let bytes := padded (bytes_of s) in
  let words := words_of (List.length bytes) bytes in
  let st := blocks (List.length words) words initial in
  hex (little_endian 4 (a0 st) ++ little_endian 4 (b0 st)
       ++ little_endian 4 (c0 st) ++ little_endian 4 (d0 st)).

End Md5.

(* ===================================================================== *)
(** ** The React component [QuizDisplay]                                 *)
(* ===================================================================== *)

Module QuizDisplay.

(** The JSON values a bundle holds, as JavaScript sees them. *)
Inductive js : Type :=
| JUndefined
| JNull
| JBool (b : bool)
| JNum (z : Z)
| JStr (s : string).

(** [x === y] on these values. *)
Definition strict_eq (x y : js) : bool :=
  match x, y with
  | JUndefined, JUndefined => true
  | JNull, JNull => true
  | JBool a, JBool b => Bool.eqb a b
  | JNum a, JNum b => Z.eqb a b
  | JStr a, JStr b => String.eqb a b
  | _, _ => false
  end.

(** The fields of a question the option list reads; [options] is [None]
    when the field is missing or null. *)
Record question : Type := {
  options : option (list js);
  answer : js
}.

(** One rendered option: its letter, its text, whether it is highlighted and
    tagged "Correct". *)
Record rendered : Type := {
  letter : string;
  option_ : js;
  isCorrect : bool
}.

(** [String.fromCharCode(65 + optIdx)] *)
Definition fromCharCode (n : nat) : string := String (ascii_of_nat n) EmptyString.

Fixpoint map_options (correctAnswerText : js) (optIdx : nat) (optionList : list js)
  : list rendered :=
  match optionList with
  | [] => []
  | option :: rest =>
      {| letter := fromCharCode (65 + optIdx);
         option_ := option;
         isCorrect := strict_eq option correctAnswerText |}
      :: map_options correctAnswerText (S optIdx) rest
  end.

(** [const optionList = question.options || [];
     const correctAnswerText = question.answer;
     optionList.map((option, optIdx) => ...)] *)
Definition render_options (q : question) : list rendered :=
  let optionList := match options q with Some l => l | None => [] end in
  let correctAnswerText := answer q in
  map_options correctAnswerText 0 optionList.

Definition answer_letters : list string := ["A"; "B"; "C"; "D"].

End QuizDisplay.

(* ===================================================================== *)
(** ** Retry with exponential backoff: [retry_with_backoff]              *)
(* ===================================================================== *)

Module Retry.

(** What the function leaves behind: the logger and the calls of
    [time.sleep], in order, with their argument in seconds. *)
Record effects : Type := {
  log : logger;
  sleeps : list Z
}.

Definition attempt_failed (attempt : nat) (wait_time : Z) : log_record :=
  Warning "Attempt {} failed, retrying in {}s"
          [VInt (Z.of_nat attempt + 1); VInt wait_time].

Section Func.

Variable A : Type.

(** [func()]: the outcome of its call number [attempt], counted from 0. *)
Variable func : nat -> result A.

(** [time.sleep(secs)]: [None] when the call sleeps and returns, and the
    exception it raises when it refuses the length (a negative one, or one
    beyond what the clock of the platform can hold). *)
Variable time_sleep : Z -> option exn.

(** [for attempt in range(max_attempts)]: return what [func] returns;
    on an exception re-raise at the last attempt, otherwise log and sleep
    [backoff_factor ** attempt] seconds; an exception of [time.sleep]
    leaves the function.  A loop that ends without returning gives
    [None]. *)
Fixpoint loop (max_attempts backoff_factor : Z) (range : list nat) (st : effects)
  : result (option A) * effects :=
  match range with
  | [] => (Ok None, st)
  | attempt :: rest =>
      match func attempt with
      | Ok r => (Ok (Some r), st)
      | Raise e =>
          if (Z.of_nat attempt =? max_attempts - 1)%Z then (Raise e, st)
          else
            let wait_time := (backoff_factor ^ Z.of_nat attempt)%Z in
            let logged := {| log := log st ++ [attempt_failed attempt wait_time];
                             sleeps := sleeps st |} in
            match time_sleep wait_time with
            | Some refused => (Raise refused, logged)
            | None =>
                loop max_attempts backoff_factor rest
                     {| log := log logged; sleeps := sleeps logged ++ [wait_time] |}
            end
      end
  end.

Definition retry_with_backoff (max_attempts backoff_factor : Z) (st : effects)
  : result (option A) * effects :=
  loop max_attempts backoff_factor (seq 0 (Z.to_nat max_attempts)) st.

End Func.

(** The waits and the warnings of [k] failed attempts, from attempt
    [first] on. *)
Definition waits_from (backoff_factor : Z) (first k : nat) : list Z :=
  map (fun j => (backoff_factor ^ Z.of_nat j)%Z) (seq first k).

Definition warnings_from (backoff_factor : Z) (first k : nat) : list log_record :=
  map (fun j => attempt_failed j (backoff_factor ^ Z.of_nat j)%Z) (seq first k).

Definition waits (backoff_factor : Z) (k : nat) : list Z :=
  waits_from backoff_factor 0 k.

Definition warnings (backoff_factor : Z) (k : nat) : list log_record :=
  warnings_from backoff_factor 0 k.

Definition total (l : list Z) : Z := fold_right Z.add 0%Z l.

End Retry.

(* ===================================================================== *)
(** ** URL validation against internal networks: [validate_url]          *)
(* ===================================================================== *)

Module Security.

(** A call returns a value or raises [ValueError] with a message. *)
Inductive outcome (A : Type) : Type :=
| Returns (a : A)
| ValueError (message : string).
Arguments Returns {A} a.
Arguments ValueError {A} message.

Definition blocked_hosts : list string :=
  ["localhost"; "127.0.0.1"; "0.0.0.0";
   "10."; "172.16."; "192.168.";
   "metadata.google.internal"].

Section Urlparse.

(** [urlparse(url).netloc], or the [ValueError] of [urlparse]. *)
Variable urlparse_netloc : string -> outcome string.

(** [for blocked in blocked_hosts: if parsed.netloc.startswith(blocked): raise] *)
Fixpoint check_blocked (netloc : string) (blocked : list string) : outcome bool :=
  match blocked with
  | [] => Returns true
  | b :: rest =>
      if String.prefix b netloc
      then ValueError "Access to internal networks is not allowed"
      else check_blocked netloc rest
  end.

Definition validate_url (url : string) : outcome bool :=
  if negb (String.prefix "http://" url || String.prefix "https://" url)
  then ValueError "URL must start with http:// or https://"
  else
    match urlparse_netloc url with
    | ValueError m => ValueError m
    | Returns netloc => check_blocked netloc blocked_hosts
    end.

End Urlparse.

(** Second octets 17 to 31 of the private range 172.16.0.0/12. *)
Definition private_172_prefixes : list string :=
  ["172.17."; "172.18."; "172.19."; "172.20."; "172.21."; "172.22."; "172.23.";
   "172.24."; "172.25."; "172.26."; "172.27."; "172.28."; "172.29."; "172.30.";
   "172.31."].

End Security.

(* ===================================================================== *)
(** ** Section-wise grouping: [assign_questions_to_sections]             *)
(* ===================================================================== *)

Module Grouping.

(** [d[key] = v]: a dict keeps the position of a key it has and puts a new
    key last; no other value takes a string key. *)
Fixpoint set_item (key : string) (v : value) (items : list (string * value))
  : list (string * value) :=
  match items with
  | [] => [(key, v)]
  | (k, old) :: rest =>
      if String.eqb key k then (k, v) :: rest else (k, old) :: set_item key v rest
  end.

Definition setitem (c : value) (key : string) (v : value) : result value :=
  match c with
  | VDict items => Ok (VDict (set_item key v items))
  | _ => Raise TypeError
  end.

Section Similarity.

(** [calculate_similarity], used but not defined by the design; a score is
    taken as an exact number. *)
Variable calculate_similarity : value -> value -> result QArith_base.Q.

(** [score > best_match_score] *)
Definition exceeds (score best : QArith_base.Q) : bool :=
  negb (QArith_base.Qle_bool score best).

(** The loop over [article_sections] for one question, from the current
    [best_match_section] and [best_match_score]. *)
Fixpoint best_match (question : value) (article_sections : list value)
         (best_match_section : value) (best_match_score : QArith_base.Q)
  : result value :=
  match article_sections with
  | [] => Ok best_match_section
  | section :: rest =>
      text <- getitem question "question" ;;
      content <- getitem section "content" ;;
      score <- calculate_similarity text content ;;
      if exceeds score best_match_score
      then heading <- getitem section "heading" ;;
           best_match question rest heading score
      else best_match question rest best_match_section best_match_score
  end.

(** The body of the loop over [questions]:
    [best_match_section = None; best_match_score = 0; ...;
     question['section'] = best_match_section]. *)
Definition assign_one (question : value) (article_sections : list value)
  : result value :=
  best <- best_match question article_sections VNone (QArith_base.Qmake 0 1) ;;
  setitem question "section" best.

(** The questions are updated one after the other, in place: when one of
    them raises, those before it keep their new section. *)
Fixpoint assign_loop (done todo : list value) (article_sections : list value)
  : result unit * list value :=
  match todo with
  | [] => (Ok tt, done)
  | question :: rest =>
      match assign_one question article_sections with
      | Raise e => (Raise e, done ++ todo)
      | Ok updated => assign_loop (done ++ [updated]) rest article_sections
      end
  end.

(** Returns the list it was given, updated; the second component is that
    list as it stands when the call ends. *)
Definition assign_questions_to_sections (questions article_sections : list value)
  : result (list value) * list value :=
  match assign_loop [] questions article_sections with
  | (Ok _, updated) => (Ok updated, updated)
  | (Raise e, partly) => (Raise e, partly)
  end.

End Similarity.

Definition is_dict (v : value) : Prop := exists items, v = VDict items.

(** Score of a section for a question: defined when the question has its
    text, the section its content and the measure returns. *)
Definition score_of (calculate_similarity : value -> value -> result QArith_base.Q)
           (question section : value) (score : QArith_base.Q) : Prop :=
  exists text content,
    getitem question "question" = Ok text
    /\ getitem section "content" = Ok content
    /\ calculate_similarity text content = Ok score.

(** What one question becomes: the same dict with ['section'] set to [h]. *)
Definition with_section (sections_ : list value) (q q' : value) : Prop :=
  exists items h,
    q = VDict items /\ q' = VDict (set_item "section" h items)
    /\ getitem q' "section" = Ok h
    /\ (forall k, k <> "section" -> getitem q' k = getitem q k)
    /\ (h = VNone \/ exists s, In s sections_ /\ getitem s "heading" = Ok h).

(** Either no section beat the running best, or the result is the heading
    of a section that beats it, beats all sections before it and is beaten
    by none after it. *)
Definition best_from (calculate_similarity : value -> value -> result QArith_base.Q)
           (q : value) (sections_ : list value) (cur : value)
           (best : QArith_base.Q) (h : value) : Prop :=
  (h = cur /\ forall s x, In s sections_ -> score_of calculate_similarity q s x ->
                          QArith_base.Qle x best)
  \/ exists before s after x,
       sections_ = before ++ s :: after
       /\ getitem s "heading" = Ok h
       /\ score_of calculate_similarity q s x
       /\ QArith_base.Qlt best x
       /\ (forall s' y, In s' before -> score_of calculate_similarity q s' y ->
                        QArith_base.Qlt y x)
       /\ (forall s' y, In s' after -> score_of calculate_similarity q s' y ->
                        QArith_base.Qle y x).

End Grouping.

(* ===================================================================== *)
(** ** The API service ([services/api.js]) and the [QuizGenerator] form  *)
(* ===================================================================== *)

Module Js.

(** JavaScript values as the service and the form handle them; an object is
    kept as the properties it shows. *)
Inductive js_value : Type :=
| Undefined
| Null
| Boolean (b : bool)
| Number (z : Z)
| Text (s : string)
| Object (properties : list (string * js_value)).

(** What [if], [!], [||] and [&&] take for true. *)
Definition truthy (v : js_value) : bool :=
  match v with
  | Undefined | Null => false
  | Boolean b => b
  | Number z => negb (z =? 0)%Z
  | Text s => negb (String.eqb s "")
  | Object _ => true
  end.

(** [a || b] *)
Definition or_else (a b : js_value) : js_value := if truthy a then a else b.

Fixpoint property (name : string) (properties : list (string * js_value)) : js_value :=
  match properties with
  | [] => Undefined
  | (k, v) :: rest => if String.eqb name k then v else property name rest
  end.

(** [v?.name], and [v.name] on a value that is neither undefined nor null:
    an object gives its property, every other value [undefined] (the names
    read here, [response], [data], [error], [message], are not properties
    of strings, numbers or booleans). *)
Definition get (v : js_value) (name : string) : js_value :=
  match v with
  | Object properties => property name properties
  | _ => Undefined
  end.

(** [s.trim()] removes white space and line terminators from both ends:
    the characters U+0009 to U+000D, U+0020, U+00A0, U+1680, U+2000 to
    U+200A, U+2028, U+2029, U+202F, U+205F, U+3000 and U+FEFF.  A text is
    kept as the bytes of its UTF-8 encoding, in which these characters take
    one, two or three bytes. *)
Definition space1 (a : nat) : bool :=
  ((9 <=? a) && (a <=? 13)) || (a =? 32).

(** U+00A0 is C2 A0. *)
Definition space2 (a b : nat) : bool :=
  (a =? 194) && (b =? 160).

(** U+1680 is E1 9A 80; U+2000 to U+200A, U+2028, U+2029 and U+202F are
    E2 80 followed by 80 to 8A, A8, A9 and AF; U+205F is E2 81 9F; U+3000 is
    E3 80 80; U+FEFF is EF BB BF. *)
Definition space3 (a b c : nat) : bool :=
  ((a =? 225) && (b =? 154) && (c =? 128))
  || ((a =? 226) && (b =? 128)
      && (((128 <=? c) && (c <=? 138)) || (c =? 168) || (c =? 169) || (c =? 175)))
  || ((a =? 226) && (b =? 129) && (c =? 159))
  || ((a =? 227) && (b =? 128) && (c =? 128))
  || ((a =? 239) && (b =? 187) && (c =? 191)).

(** What follows the white-space character a text starts with, if it starts
    with one. *)
Definition after_space (s : string) : option string :=
  match s with
  | String a r1 =>
      if space1 (nat_of_ascii a) then Some r1 else
      match r1 with
      | String b r2 =>
          if space2 (nat_of_ascii a) (nat_of_ascii b) then Some r2 else
          match r2 with
          | String c r3 =>
              if space3 (nat_of_ascii a) (nat_of_ascii b) (nat_of_ascii c)
              then Some r3 else None
          | EmptyString => None
          end
      | EmptyString => None
      end
  | EmptyString => None
  end.

(** At most [fuel] white-space characters removed from the start. *)
Fixpoint strip (fuel : nat) (s : string) : string :=
  match fuel with
  | 0 => s
  | S fuel' =>
      match after_space s with
      | Some rest => strip fuel' rest
      | None => s
      end
  end.

Definition trim_left (s : string) : string := strip (String.length s) s.

Fixpoint blank_within (fuel : nat) (s : string) : bool :=
  match s with
  | EmptyString => true
  | String _ _ =>
      match fuel with
      | 0 => false
      | S fuel' =>
          match after_space s with
          | Some rest => blank_within fuel' rest
          | None => false
          end
      end
  end.

(** The text is white space from start to end. *)
Definition all_space (s : string) : bool := blank_within (String.length s) s.

(** The text up to the point from which only white space follows. *)
Fixpoint trim_right (s : string) : string :=
  if all_space s then EmptyString
  else match s with
       | String c rest => String c (trim_right rest)
       | EmptyString => EmptyString
       end.

Definition trim (s : string) : string := trim_right (trim_left s).

End Js.

Module Api.

Import Js.

(** A call of the axios instance. *)
Record request : Type := {
  method : string;
  path : string;
  data : list (string * js_value)
}.

(** How the promise of axios settles: with a response object, or rejected
    with an error object. *)
Inductive settled : Type :=
| Resolved (response : list (string * js_value))
| Rejected (error : list (string * js_value)).

(** How an [async] function of the service ends. *)
Inductive completion : Type :=
| Returned (v : js_value)
| Thrown (v : js_value).

(** [error.response?.data?.error || error] *)
Definition unwrap (error : list (string * js_value)) : js_value :=
  or_else (get (get (get (Object error) "response") "data") "error") (Object error).

Definition finish (s : settled) : completion :=
  match s with
  | Resolved response => Returned (get (Object response) "data")
  | Rejected error => Thrown (unwrap error)
  end.

Section Network.

Variable axios : request -> settled.

(** [generateQuiz: async (url, numQuestions = 8) => ...] *)
Definition generateQuiz (url numQuestions : js_value) : completion :=
  let numQuestions := match numQuestions with Undefined => Number 8 | n => n end in
  finish (axios {| method := "post"; path := "/quiz/generate";
                   data := [("url", url); ("num_questions", numQuestions)] |}).

End Network.

End Api.

Module QuizGenerator.

Import Js.

Record state : Type := {
  url : string;
  numQuestions : Z;
  loading : bool;
  error : js_value
}.

(** [useState('')], [useState(8)], [useState(false)], [useState(null)] *)
Definition initial : state :=
  {| url := ""; numQuestions := 8; loading := false; error := Null |}.

(** What the handler does besides setting state. *)
Inductive effect : Type :=
| Sent (r : Api.request)
| OnQuizGenerated (quiz : js_value).

Section Network.

Variable axios : Api.request -> Api.settled.

Definition request_of (s : state) : Api.request :=
  {| Api.method := "post"; Api.path := "/quiz/generate";
     Api.data := [("url", Text (url s)); ("num_questions", Number (numQuestions s))] |}.

(** [handleSubmit], from the click to the end of its [finally] block: the
    state then, and the request sent and the callback made on the way. *)
Definition handleSubmit (s : state) : state * list effect :=
  if negb (truthy (Text (trim (url s))))
  then ({| url := url s; numQuestions := numQuestions s; loading := loading s;
           error := Text "Please enter a URL" |}, [])
  else
    match Api.generateQuiz axios (Text (url s)) (Number (numQuestions s)) with
    | Api.Returned quiz =>
        ({| url := ""; numQuestions := numQuestions s; loading := false; error := Null |},
         [Sent (request_of s); OnQuizGenerated quiz])
    | Api.Thrown err =>
        ({| url := url s; numQuestions := numQuestions s; loading := false;
            error := or_else (get err "message")
                             (Text "Failed to generate quiz. Please try again.") |},
         [Sent (request_of s)])
    end.

End Network.

End QuizGenerator.

(* ===================================================================== *)
(** ** The React component [QuizHistory]                                 *)
(* ===================================================================== *)

Module QuizHistory.

Import Js.
Local Open Scope Z_scope.

(** The state of the component. *)
Record state : Type := {
  quizzes : list js_value;
  total : Z;
  page : Z;
  search : string;
  loading : bool;
  error : js_value
}.

Definition limit : Z := 20.

(** [Math.ceil(t / limit)] *)
Definition pages_of (t : Z) : Z := - ((- t) / limit).

(** [const totalPages = Math.ceil(total / limit)] *)
Definition totalPages (s : state) : Z := pages_of (total s).

(** [useState([])], [useState(0)], [useState(1)], [useState('')],
    [useState(false)], [useState(null)] *)
Definition initial : state :=
  {| quizzes := []; total := 0; page := 1; search := ""; loading := false;
     error := Null |}.

(** The start of [fetchQuizzes]: [setLoading(true); setError(null)], and the
    request for the page is on its way. *)
Definition fetch_started (s : state) : state :=
  {| quizzes := quizzes s; total := total s; page := page s; search := search s;
     loading := true; error := Null |}.

(** [useEffect(() => { fetchQuizzes(); }, [page, search])] runs after the
    first rendering: the component then waits for its first answer. *)
Definition mounted : state := fetch_started initial.

(** The effect runs again after a rendering in which [page] or [search] has
    changed, and before the next event is handled. *)
Definition rendered_again (before after : state) : state :=
  if (page after =? page before) && String.eqb (search after) (search before)
  then after
  else fetch_started after.

Definition setPage (f : Z -> Z) (s : state) : state :=
  {| quizzes := quizzes s; total := total s; page := f (page s); search := search s;
     loading := loading s; error := error s |}.

(** [setSearch(e.target.value); setPage(1)] *)
Definition handleSearchChange (value_ : string) (s : state) : state :=
  {| quizzes := quizzes s; total := total s; page := 1; search := value_;
     loading := loading s; error := error s |}.

(** [onClick={() => setPage(p => Math.max(1, p - 1))}] *)
Definition previous (s : state) : state :=
  setPage (fun p => Z.max 1 (p - 1)) s.

(** [onClick={() => setPage(p => Math.min(totalPages, p + 1))}] *)
Definition next (s : state) : state :=
  setPage (fun p => Z.min (totalPages s) (p + 1)) s.

(** The two buttons are part of what
    [loading ? ... : quizzes.length === 0 ? ... : <> ... {totalPages > 1 && (...)} </>]
    renders: they exist when nothing is loading, the page of quizzes is not
    empty and there is more than one page. *)
Definition pagination_rendered (s : state) : bool :=
  negb (loading s) && negb (Nat.eqb (List.length (quizzes s)) 0) && (1 <? totalPages s).

(** What happens to the component: a click, a change of the search field
    (which is always rendered), and the end of a request of [fetchQuizzes],
    with [{quizzes, total}] as data or with an error.  Answers may come at
    any time and in any order. *)
Inductive event : Type :=
| Previous
| Next
| SearchChange (value_ : string)
| Fetched (quizzes_ : list js_value) (total_ : Z)
| FetchFailed (err : js_value).

(** A click reaches its handler only while the buttons are rendered and the
    button is not disabled ([disabled={page === 1}],
    [disabled={page === totalPages}]).  An answer ends with
    [setLoading(false)], after [setQuizzes(data.quizzes); setTotal(data.total)]
    or after [setError(err.message || 'Failed to fetch quiz history')]. *)
Definition handle (e : event) (s : state) : state :=
  match e with
  | Previous =>
      if pagination_rendered s && negb (page s =? 1)
      then rendered_again s (previous s) else s
  | Next =>
      if pagination_rendered s && negb (page s =? totalPages s)
      then rendered_again s (next s) else s
  | SearchChange v => rendered_again s (handleSearchChange v s)
  | Fetched quizzes_ total_ =>
      {| quizzes := quizzes_; total := total_; page := page s; search := search s;
         loading := false; error := error s |}
  | FetchFailed err =>
      {| quizzes := quizzes s; total := total s; page := page s; search := search s;
         loading := false;
         error := or_else (get err "message") (Text "Failed to fetch quiz history") |}
  end.

Fixpoint run (events : list event) (s : state) : state :=
  match events with
  | [] => s
  | e :: rest => run rest (handle e s)
  end.

(** The largest total among [m] and the totals the answers reported. *)
Definition largest_total (events : list event) (m : Z) : Z :=
  fold_left (fun m e => match e with
                        | Fetched _ t => Z.max m t
                        | _ => m
                        end) events m.

(** Every answer reports the total [t]. *)
Definition steady_total (t : Z) (events : list event) : Prop :=
  forall quizzes_ total_, In (Fetched quizzes_ total_) events -> total_ = t.

(** The page is at least 1 and at most the larger of 1 and the page count
    of [m], which is at least the total the component holds. *)
Definition within (m : Z) (s : state) : Prop :=
  1 <= page s <= Z.max 1 (pages_of m) /\ total s <= m.

(** The component showing page [p] of the quizzes answered last, with an
    empty search field. *)
Definition showing (quizzes_ : list js_value) (total_ p : Z) : state :=
  {| quizzes := quizzes_; total := total_; page := p; search := "";
     loading := false; error := Null |}.

(** One click on Next and the answer to the request it starts, [k] times. *)
Definition next_rounds (quizzes_ : list js_value) (total_ : Z) (k : nat) : list event :=
  concat (repeat [Next; Fetched quizzes_ total_] k).

End QuizHistory.

(* ===================================================================== *)
(** ** Properties stated by the specification, and concrete inputs       *)
(* ===================================================================== *)

Module Props.

(** What [validate_quiz_json] establishes for a question: the five fields
    are present, [options] has length 4, [answer] is one of the four
    letters, so that its index is below the number of options and, for a
    list of options, points at one of them, and [difficulty] is one of the
    three levels. *)
Definition well_formed_question (q : value) : Prop :=
  (forall field, In field quiz_fields -> contains field q = Ok true)
  /\ exists options_ a k d,
       getitem q "options" = Ok options_ /\ len options_ = Ok 4
       /\ getitem q "answer" = Ok (VStr a) /\ In a ["A"; "B"; "C"; "D"]
       /\ letter_index a = Some k /\ k < 4
       /\ (forall l, options_ = VList l -> exists o, nth_error l k = Some o)
       /\ getitem q "difficulty" = Ok (VStr d) /\ In d ["easy"; "medium"; "hard"].

(** What the specification asks of a returned question: four pairwise
    distinct options, and an answer letter that resolves to a non-empty
    string among them. *)
Definition spec_question (q : value) : Prop :=
  exists l a k o,
    getitem q "options" = Ok (VList l) /\ List.length l = 4 /\ NoDup l
    /\ getitem q "answer" = Ok (VStr a) /\ In a ["A"; "B"; "C"; "D"]
    /\ letter_index a = Some k /\ nth_error l k = Some (VStr o) /\ o <> "".

Definition mk_question (text : string) (opts : list string) (ans diff : string)
  : value :=
  VDict [("question", VStr text);
         ("options", VList (map VStr opts));
         ("answer", VStr ans);
         ("difficulty", VStr diff);
         ("explanation", VStr "See the introduction.")].

Definition q_capital : value :=
  mk_question "What is the capital of France?"
              ["Paris"; "Lyon"; "Nice"; "Lille"] "A" "easy".

(** Passes validation with two equal options and an empty one as answer. *)
Definition q_repeated : value :=
  mk_question "What is the capital of France?"
              ["Paris"; "Paris"; ""; "Lille"] "C" "easy".

(** Answer letter outside A..D. *)
Definition q_bad_answer : value :=
  mk_question "Which river crosses Paris?"
              ["Seine"; "Loire"; "Rhone"; "Garonne"] "E" "medium".

Definition response_of (qs : list value) : value := VDict [("quiz", VList qs)].

Definition always (response : value) : prompt_inputs -> nat -> result value :=
  fun _ _ => Ok response.

Definition no_truncation (s : string) : string := s.

(** A stand-in for [extract_key_terms]: the words of the text. *)
Fixpoint words_from (current : string) (s : string) : list string :=
  match s with
  | EmptyString => if String.eqb current "" then [] else [current]
  | String c rest =>
      if Ascii.eqb c " "
      then (if String.eqb current "" then [] else [current]) ++ words_from "" rest
      else words_from (current ++ String c EmptyString) rest
  end.

Definition words_of (v : value) : result (list string) :=
  match v with
  | VStr s => Ok (words_from "" s)
  | _ => Raise TypeError
  end.

(** A stand-in for [str.lower] in concrete runs on ASCII text, where the
    letters A to Z are the only characters with a lower-case form. *)
Definition lower_ascii (c : ascii) : ascii :=
  let n := nat_of_ascii c in
  if (65 <=? n) && (n <=? 90) then ascii_of_nat (n + 32) else c.

Fixpoint lower_sample (s : string) : string :=
  match s with
  | EmptyString => EmptyString
  | String c rest => String (lower_ascii c) (lower_sample rest)
  end.

Definition article_sample : string :=
  "Paris is the capital of France. The Seine crosses the city.".

(** Three of its four words occur in the sample article. *)
Definition q_grounded : value :=
  mk_question "capital of France today"
              ["Paris"; "Lyon"; "Nice"; "Lille"] "A" "easy".

Definition q_ungrounded : value :=
  mk_question "Which painter made Guernica"
              ["Picasso"; "Monet"; "Dali"; "Miro"] "A" "hard".

(** Three wordings of one question, and an unrelated one. *)
Definition q_capital_city : value :=
  mk_question "What is the capital city of France?"
              ["Paris"; "Lyon"; "Nice"; "Lille"] "A" "easy".

Definition q_capital_short : value :=
  mk_question "What's the capital of France?"
              ["Paris"; "Lyon"; "Nice"; "Lille"] "A" "easy".

Definition q_painter : value :=
  mk_question "Who painted the Mona Lisa?"
              ["Leonardo"; "Raphael"; "Titian"; "Giotto"] "A" "medium".

Definition text_of (q : value) : value :=
  match getitem q "question" with
  | Ok t => t
  | Raise _ => VNone
  end.

(** Collaborators of the pipeline for concrete runs. *)
Definition no_fault (s : Backend.statement) : bool := false.

Definition fails_on_questions (s : Backend.statement) : bool :=
  match s with
  | Backend.InsertQuestions => true
  | _ => false
  end.

Definition url_article : string := "https://example.com/article".
Definition url_article_slash : string := "https://example.com/article/".
Definition url_stub : string := "https://example.com/stub".

Definition question_sample : Backend.question_data :=
  {| Backend.question_text := "What is the capital of France?";
     Backend.option_a := "Paris"; Backend.option_b := "Lyon";
     Backend.option_c := "Nice"; Backend.option_d := "Lille";
     Backend.correct_answer := "A"; Backend.difficulty := "easy";
     Backend.explanation := "See the introduction." |}.

Definition data_sample : Backend.quiz_data :=
  {| Backend.qd_url := url_article;
     Backend.qd_title := "Sample";
     Backend.qd_summary := "About Paris.";
     Backend.qd_sections := ["History"];
     Backend.qd_key_entities := [(Backend.locations, "Paris")];
     Backend.qd_quiz := [question_sample];
     Backend.qd_related_topics := [("Seine", None)] |}.

(** A cleaned page of the given number of words. *)
Definition page_sample (words : nat) : Backend.article :=
  {| Backend.title := "Sample";
     Backend.full_text := article_sample;
     Backend.sections := [("History", "Paris is the capital of France.")];
     Backend.word_count := words |}.

Definition stages_sample (art : Backend.article) (numQuestions : nat)
  : Backend.outcome Backend.quiz_data :=
  Backend.Done data_sample.

(** What a run finds at a time when every page has [words] words. *)
Definition world_sample (words : nat) : Backend.collaborators :=
  {| Backend.fetch := fun _ => Backend.Cleaned (page_sample words);
     Backend.stages := stages_sample;
     Backend.storage_fault := no_fault |}.

Definition fresh_connection : Backend.connection :=
  {| Backend.committed := Backend.empty_tables; Backend.pending := None |}.

(** The connection after a request for the article at a time when its page
    had 650 words. *)
Definition after_first_request : Backend.connection :=
  snd (Backend.generate Backend.default_min_words (world_sample 650) url_article 5
                        fresh_connection).

(** A question of the wire schema: the answer is a letter. *)
Definition display_sample : QuizDisplay.question :=
  {| QuizDisplay.options :=
       Some [QuizDisplay.JStr "Paris"; QuizDisplay.JStr "Lyon";
             QuizDisplay.JStr "Nice"; QuizDisplay.JStr "Lille"];
     QuizDisplay.answer := QuizDisplay.JStr "A" |}.

(** A question whose answer is the text of its first option. *)
Definition display_text_sample : QuizDisplay.question :=
  {| QuizDisplay.options :=
       Some [QuizDisplay.JStr "Paris"; QuizDisplay.JStr "Lyon";
             QuizDisplay.JStr "Nice"; QuizDisplay.JStr "Lille"];
     QuizDisplay.answer := QuizDisplay.JStr "Paris" |}.

End Props.

Import Props.

(* ===================================================================== *)
(** ** Further properties, as predicates                                 *)
(* ===================================================================== *)

Module MoreProps.

(** The exceptions [validate_quiz_json] can raise. *)
Definition schema_error (e : exn) : Prop :=
  (exists v, e = Py.ValueError v) \/ e = TypeError.

(** The index a [ValueError] of [validate_quiz_json] names. *)
Definition violation_index (v : violation) : option nat :=
  match v with
  | MissingQuiz => None
  | MissingField i _ => Some i
  | OptionsCount i => Some i
  | InvalidAnswer i _ => Some i
  | InvalidDifficulty i => Some i
  end.

(** [l1] is [l2] with some elements left out, the others in their order. *)
Inductive subseq {A : Type} : list A -> list A -> Prop :=
| subseq_nil : subseq [] []
| subseq_skip (x : A) (l1 l2 : list A) : subseq l1 l2 -> subseq l1 (x :: l2)
| subseq_keep (x : A) (l1 l2 : list A) : subseq l1 l2 -> subseq (x :: l1) (x :: l2).

(** The measure rates the texts of two questions at 0.8 or less. *)
Definition dissimilar (ratio : value -> value -> result bool) (q1 q2 : value) : Prop :=
  exists t1 t2,
    getitem q1 "question" = Ok t1 /\ getitem q2 "question" = Ok t2
    /\ ratio t1 t2 = Ok false.

End MoreProps.

Import MoreProps.

(* ===================================================================== *)
(** ** Further concrete inputs                                           *)
(* ===================================================================== *)

Module Samples.

(** A call that fails twice and then returns 7. *)
Definition third_time_lucky (attempt : nat) : result nat :=
  if attempt <? 2 then Raise TypeError else Ok 7.

Definition always_failing (attempt : nat) : result nat := Raise IndexError.

Definition no_effects : Retry.effects := {| Retry.log := []; Retry.sleeps := [] |}.

(** A stand-in for [time.sleep] on whole seconds: a negative length is
    refused, and so is one that does not fit the 64-bit count of
    nanoseconds the call works with. *)
Definition sleep_sample (secs : Z) : option exn :=
  if (secs <? 0)%Z then Some (OtherError "sleep length must be non-negative")
  else if (9223372036 <? secs)%Z
       then Some (OtherError "timestamp too large to convert to C _PyTime_t")
       else None.

(** A stand-in for [urlparse(url).netloc] on URLs of the form
    scheme://netloc/path: what lies between "//" and the next "/". *)
Fixpoint until_slash (s : string) : string :=
  match s with
  | EmptyString => EmptyString
  | String c rest => if Ascii.eqb c "/" then EmptyString else String c (until_slash rest)
  end.

Fixpoint after_double_slash (s : string) : string :=
  match s with
  | String "/" (String "/" rest) => rest
  | String _ rest => after_double_slash rest
  | EmptyString => EmptyString
  end.

Definition netloc_sample (url : string) : Security.outcome string :=
  Security.Returns (until_slash (after_double_slash url)).

(** A stand-in for [calculate_similarity]: the number of words of the
    question that occur in the content. *)
Definition shared_words (text content : value) : result QArith_base.Q :=
  match text, content with
  | VStr t, VStr c =>
      Ok (QArith_base.Qmake
            (Z.of_nat (List.length (filter (fun w => str_contains w c)
                                           (words_from "" t)))) 1)
  | _, _ => Raise TypeError
  end.

Definition section_sample (heading content : string) : value :=
  VDict [("heading", VStr heading); ("content", VStr content)].

Definition sections_sample : list value :=
  [section_sample "Geography" "The Seine crosses the city of Paris.";
   section_sample "History" "Paris is the capital of France since 987.";
   section_sample "Culture" "The capital of France has many museums."].

(** A call of [cache_quiz] with the default time to live. *)
Definition caching_sample (url : string) (d : value) (now : Z) : Cache.caching :=
  {| Cache.cached_url := url; Cache.cached_data := d;
     Cache.cached_ttl := Cache.default_ttl; Cache.cached_at := now |}.

(** A stand-in for the limit of the Redis server on expire times: the
    milliseconds have to fit 64 bits. *)
Definition expire_limit_sample (ttl : Z) : bool := (9223372036854775 <? ttl)%Z.

(** The server answers 400 with the standardized error body. *)
Definition rejected_sample : list (string * Js.js_value) :=
  [("message", Js.Text "Request failed with status code 400");
   ("response",
    Js.Object
      [("status", Js.Number 400);
       ("data",
        Js.Object
          [("error",
            Js.Object [("code", Js.Text "CONTENT_TOO_SHORT");
                       ("message",
                        Js.Text "Article content is too short (minimum 300 words)")])])])].

Definition axios_rejecting (r : Api.request) : Api.settled := Api.Rejected rejected_sample.

(** A no-break space (U+00A0, in UTF-8 the bytes C2 A0) and a space. *)
Definition no_break_space : string :=
  String (ascii_of_nat 194) (String (ascii_of_nat 160) " ").

Definition form_sample : QuizGenerator.state :=
  {| QuizGenerator.url := "https://example.com/stub"; QuizGenerator.numQuestions := 8;
     QuizGenerator.loading := false; QuizGenerator.error := Js.Null |}.

End Samples.

(* ===================================================================== *)
(** ** Results on validation and generation                              *)
(* ===================================================================== *)

Lemma bind_Ok {A B : Type} (r : result A) (k : A -> result B) (b : B) :
  Py.bind r k = Ok b -> exists a, r = Ok a /\ k a = Ok b.
Proof.
  destruct r as [a|e]; simpl; intros H; [exists a; auto | discriminate].
Qed.

Ltac inv_bind H :=
  let a := fresh "a" in
  let Ha := fresh "Ha" in
  apply bind_Ok in H; destruct H as [a [Ha H]]; cbv beta in H.

Lemma check_fields_Ok (i : nat) (q : value) (fields : list string) :
  check_fields i q fields = Ok tt ->
  forall field, In field fields -> contains field q = Ok true.
Proof.
  induction fields as [|f rest IH]; simpl; intros H field Hin; [contradiction|].
  inv_bind H. destruct a; [|discriminate].
  destruct Hin as [<- | Hin]; auto.
Qed.

Lemma one_of_In (v : value) (literals : list string) :
  one_of v literals = true -> exists s, v = VStr s /\ In s literals.
Proof.
  destruct v; simpl; try discriminate. intros H.
  apply existsb_exists in H. destruct H as [x [Hin Heq]].
  apply String.eqb_eq in Heq. subst. eauto.
Qed.

Lemma letter_index_bound (a : string) :
  In a ["A"; "B"; "C"; "D"] -> exists k, letter_index a = Some k /\ k < 4.
Proof.
  simpl. intros [<- | [<- | [<- | [<- | []]]]]; vm_compute; eauto 10.
Qed.

Lemma validate_question_Ok (i : nat) (q : value) :
  validate_question i q = Ok tt -> well_formed_question q.
Proof.
  unfold validate_question. intros H.
  inv_bind H. destruct a. pose proof (check_fields_Ok _ _ _ Ha) as Hfields.
  inv_bind H. inv_bind H.
  destruct (a0 =? 4) eqn:Hlen; simpl in H; [|discriminate].
  apply Nat.eqb_eq in Hlen. subst a0.
  inv_bind H.
  destruct (one_of a0 ["A"; "B"; "C"; "D"]) eqn:Hans; simpl in H; [|discriminate].
  inv_bind H.
  destruct (one_of a1 ["easy"; "medium"; "hard"]) eqn:Hdiff; simpl in H; [|discriminate].
  apply one_of_In in Hans. destruct Hans as [s [-> Hs]].
  apply one_of_In in Hdiff. destruct Hdiff as [d [-> Hd]].
  destruct (letter_index_bound s Hs) as [k [Hk Hlt]].
  split; [exact Hfields|].
  exists a, s, k, d. repeat split; auto.
  intros l ->. simpl in Ha1. injection Ha1 as Hl.
  destruct (nth_error l k) eqn:Hn; [eauto|].
  apply nth_error_None in Hn. lia.
Qed.

Lemma validate_questions_Ok (qs : list value) :
  forall i, validate_questions i qs = Ok tt -> Forall well_formed_question qs.
Proof.
  induction qs as [|q rest IH]; simpl; intros i H; [constructor|].
  inv_bind H. destruct a.
  constructor; [eapply validate_question_Ok; eauto | eapply IH; eauto].
Qed.

Lemma validate_quiz_json_Ok (response : value) (b : bool) :
  validate_quiz_json response = Ok b ->
  b = true /\ exists qs, questions_of response = Ok qs /\ Forall well_formed_question qs.
Proof.
  unfold validate_quiz_json, questions_of. intros H.
  inv_bind H. destruct a; simpl in H; [|discriminate].
  inv_bind H. inv_bind H. inv_bind H. destruct a1.
  injection H as <-. split; [reflexivity|].
  exists a0. rewrite Ha0. simpl. split; [assumption|].
  eapply validate_questions_Ok; eauto.
Qed.







(* ===================================================================== *)
(** ** The matcher on the examples of the [difflib] documentation        *)
(* ===================================================================== *)

Example find_longest_match_doc :
  Difflib.find_longest_match (list_ascii_of_string " abcd")
                             (list_ascii_of_string "abcd abcd") 0 5 0 9
  = (0, 4, 5).
Proof. reflexivity. Qed.

(** [ratio()] is 0.75 for "abcd" against "bcde", 0.25 for "tide" against
    "diet" and 0.5 the other way round. *)
Example matches_doc :
  Difflib.matches (list_ascii_of_string "abcd") (list_ascii_of_string "bcde") = Some 3
  /\ Difflib.matches (list_ascii_of_string "tide") (list_ascii_of_string "diet") = Some 1
  /\ Difflib.matches (list_ascii_of_string "diet") (list_ascii_of_string "tide") = Some 2.
Proof. repeat split; reflexivity. Qed.

(* ===================================================================== *)
(** ** Results on grounding                                              *)
(* ===================================================================== *)

Lemma low_score_true (grounded terms : nat) :
  2 * grounded < terms -> low_score grounded terms = Ok true.
Proof.
  intros H. unfold low_score.
  destruct (terms =? 0) eqn:Hz; [apply Nat.eqb_eq in Hz; lia|].
  f_equal. apply Nat.ltb_lt. exact H.
Qed.

(** X25: a score of one half or more, one half included, leaves the logger
    as it was: the question is not flagged and [True] is returned.  This
    holds whatever [str.lower] does to the terms and the text. *)
Lemma grounded_question_not_flagged
  (str_lower : string -> string)
  (extract_key_terms : value -> result (list string))
  (question text : value) (article_text : string) (terms : list string)
  (lg : logger) :
  getitem question "question" = Ok text ->
  extract_key_terms text = Ok terms ->
  terms <> [] ->
  List.length terms <= 2 * List.length (grounded_terms str_lower terms article_text) ->
  validate_question_grounding str_lower extract_key_terms question article_text lg
  = (Ok true, lg).
Proof.
  intros Hq Ht Hne Hscore. unfold validate_question_grounding.
  rewrite Hq. simpl. rewrite Ht. simpl. unfold low_score.
  destruct (List.length terms =? 0) eqn:Hz.
  - apply Nat.eqb_eq in Hz. destruct terms; [congruence | discriminate].
  - simpl. replace (_ <? _) with false; [reflexivity|].
    symmetry. apply Nat.ltb_ge. simpl in Hscore. lia.
Qed.

(** X24: a question without key terms makes the division fail: the call
    raises [ZeroDivisionError] and logs nothing. *)
Lemma no_terms_raises
  (str_lower : string -> string)
  (extract_key_terms : value -> result (list string))
  (question text : value) (article_text : string) (lg : logger) :
  getitem question "question" = Ok text ->
  extract_key_terms text = Ok [] ->
  validate_question_grounding str_lower extract_key_terms question article_text lg
  = (Raise ZeroDivisionError, lg).
Proof.
  intros Hq Ht. unfold validate_question_grounding.
  rewrite Hq. simpl. rewrite Ht. reflexivity.
Qed.

(** C8, as the code has it: when fewer than half of the key terms of a question
    occur (case-insensitively) in the article text,
    [validate_question_grounding] flags the question without discarding it:
    it writes one "Low grounding score" warning naming the question to the
    logger and returns [True], which is also what it returns for a question
    it does not flag.  It raises nothing, and it returns nothing but that
    boolean, so the questions of the caller stay as they are. *)
Theorem low_grounding_flagged_not_rejected
  (str_lower : string -> string)
  (extract_key_terms : value -> result (list string))
  (question text : value) (article_text : string) (terms : list string)
  (lg : logger) :
  getitem question "question" = Ok text ->
  extract_key_terms text = Ok terms ->
  2 * List.length (grounded_terms str_lower terms article_text) < List.length terms ->
  validate_question_grounding str_lower extract_key_terms question article_text lg
  = (Ok true, lg ++ [low_grounding text])
  /\ forall question' article_text' lg' b,
       fst (validate_question_grounding str_lower extract_key_terms
                                        question' article_text' lg') = Ok b ->
       b = true.
Proof.
  intros Hq Ht Hscore. split.
  - unfold validate_question_grounding.
    rewrite Hq. simpl. rewrite Ht. simpl.
    rewrite (low_score_true _ _ Hscore). reflexivity.
  - intros question' article_text' lg' b.
    unfold validate_question_grounding.
    destruct (text0 <- getitem question' "question" ;;
              question_terms <- extract_key_terms text0 ;;
              low <- low_score
                       (List.length (grounded_terms str_lower question_terms
                                                    article_text'))
                       (List.length question_terms) ;;
              Ok (text0, low)) as [[t [|]]|e]; simpl; congruence.
Qed.

Lemma low_grounding_flagged_not_rejected_witness :
  validate_question_grounding lower_sample words_of q_ungrounded article_sample []
  = (Ok true, [low_grounding (VStr "Which painter made Guernica")]).
Proof.
  apply (proj1 (low_grounding_flagged_not_rejected
           lower_sample words_of q_ungrounded (VStr "Which painter made Guernica")
           article_sample ["Which"; "painter"; "made"; "Guernica"] []
           eq_refl eq_refl ltac:(vm_compute; lia))).
Defined.


(** C8, as the specification states it: the flag does not reach the caller.
    The question about Guernica is flagged and the question about the
    capital is not, and the caller gets [True] for both; the two calls
    differ in the logger only. *)
Lemma low_grounding_flag_not_returned :
  validate_question_grounding lower_sample words_of q_ungrounded article_sample []
  = (Ok true, [low_grounding (VStr "Which painter made Guernica")])
  /\ validate_question_grounding lower_sample words_of q_grounded article_sample []
     = (Ok true, [])
  /\ fst (validate_question_grounding lower_sample words_of q_ungrounded
                                      article_sample [])
     = fst (validate_question_grounding lower_sample words_of q_grounded
                                        article_sample []).
Proof. repeat split; vm_compute; reflexivity. Qed.

(* ===================================================================== *)
(** ** Results on duplicate detection                                    *)
(* ===================================================================== *)

Lemma remove_at_length {A : Type} (l : list A) :
  forall j, List.length (remove_at j l) <= List.length l.
Proof.
  induction l as [|x rest IH]; intros [|j]; simpl; auto.
  specialize (IH j). lia.
Qed.

Lemma inner_loop_length ratio (slice : list value) :
  forall i q1 j st,
    List.length (Duplicates.questions (snd (inner_loop ratio i q1 slice j st)))
    <= List.length (Duplicates.questions st).
Proof.
  induction slice as [|q2 rest IH]; intros i q1 j st; simpl; [lia|].
  destruct (t1 <- getitem q1 "question" ;; t2 <- getitem q2 "question" ;; ratio t1 t2)
    as [[|]|e]; simpl; auto.
  unfold pop. destruct (j <? _) eqn:Hj; simpl; [|lia].
  etransitivity; [apply IH|]. simpl. apply remove_at_length.
Qed.

(** The length of the list on entry is fuel enough for the outer loop:
    more fuel changes nothing. *)
Lemma outer_loop_fuel ratio (fuel : nat) :
  forall i st extra,
    List.length (Duplicates.questions st) <= i + fuel ->
    outer_loop ratio (fuel + extra) i st = outer_loop ratio fuel i st.
Proof.
  induction fuel as [|fuel IH]; intros i st extra Hlen.
  - simpl. destruct extra; simpl; [reflexivity|].
    destruct (nth_error (Duplicates.questions st) i) eqn:Hn; [|reflexivity].
    assert (i < List.length (Duplicates.questions st))
      by (apply nth_error_Some; congruence).
    lia.
  - cbn [Nat.add outer_loop].
    destruct (nth_error (Duplicates.questions st) i) eqn:Hn; [|reflexivity].
    pose proof (inner_loop_length ratio (skipn (S i) (Duplicates.questions st))
                                  i v (S i) st) as Hshrink.
    destruct (inner_loop ratio i v (skipn (S i) (Duplicates.questions st)) (S i) st)
      as [[u|e] st']; [|reflexivity].
    simpl in Hshrink. apply IH. lia.
Qed.

(** Whatever the similarity measure, three questions it rates alike make
    the second [pop] run past the end of the list. *)
Lemma three_alike_raise
  (ratio : value -> value -> result bool) (q t : value) (lg : logger) :
  getitem q "question" = Ok t ->
  ratio t t = Ok true ->
  fst (check_duplicate_questions ratio [q; q; q] lg) = Raise IndexError.
Proof.
  intros Hq Hr. unfold check_duplicate_questions.
  cbn [List.length outer_loop nth_error skipn inner_loop Duplicates.questions].
  rewrite Hq. cbn [Py.bind]. rewrite Hr. reflexivity.
Qed.

(** C3 at a failing input: of three wordings of one question followed by an
    unrelated one, the first [pop] removes the second wording, and the next
    match, found at snapshot position 2, pops what is now at index 2, the
    unrelated question.  The list returned keeps two questions rated above
    0.8 and has lost the one that resembles none.  With three questions
    alike and nothing after them the second [pop] raises [IndexError]. *)
Theorem check_duplicate_questions_pops_shifted_index :
  suppressed Difflib.ratio_exceeds
             [q_capital; q_capital_city; q_capital_short; q_painter]
  = Ok [q_capital; q_capital_short]
  /\ Difflib.ratio_exceeds (text_of q_capital) (text_of q_capital_city) = Ok true
  /\ Difflib.ratio_exceeds (text_of q_capital) (text_of q_capital_short) = Ok true
  /\ Difflib.ratio_exceeds (text_of q_capital) (text_of q_painter) = Ok false
  /\ Difflib.ratio_exceeds (text_of q_capital_city) (text_of q_painter) = Ok false
  /\ Difflib.ratio_exceeds (text_of q_capital_short) (text_of q_painter) = Ok false
  /\ suppressed Difflib.ratio_exceeds [q_capital; q_capital; q_capital]
     = Raise IndexError.
Proof.
  repeat split; vm_compute; reflexivity.
Qed.

(** C4 at a failing input: the output of one run still holds a pair rated
    above 0.8, so a second run removes one more question. *)
Theorem check_duplicate_questions_second_run_differs :
  suppressed Difflib.ratio_exceeds
             [q_capital; q_capital_city; q_capital_short; q_painter]
  = Ok [q_capital; q_capital_short]
  /\ suppressed Difflib.ratio_exceeds [q_capital; q_capital_short]
     = Ok [q_capital]
  /\ [q_capital] <> [q_capital; q_capital_short].
Proof.
  repeat split; try (vm_compute; reflexivity). discriminate.
Qed.

(* ===================================================================== *)
(** ** Results on persistence and on the pipeline, as the specification
       describes them                                                     *)
(* ===================================================================== *)

Section BackendResults.

Import Backend.

Lemma find_last {A : Type} (f : A -> bool) (l : list A) (y : A) :
  (forall x, In x l -> f x = false) -> f y = true -> find f (l ++ [y]) = Some y.
Proof.
  induction l as [|x rest IH]; simpl; intros Hl Hy.
  - rewrite Hy. reflexivity.
  - rewrite (Hl x (or_introl eq_refl)). apply IH; auto.
Qed.

Lemma next_id_fresh (ids : list nat) : ~ In (next_id ids) ids.
Proof.
  intros Hin. unfold next_id in Hin.
  assert (Hall : Forall (fun k => k <= list_max ids) ids)
    by (apply list_max_le; lia).
  rewrite Forall_forall in Hall. specialize (Hall _ Hin). lia.
Qed.

Lemma number_rows_map {A R B : Type} (mk : nat -> A -> R) (f : R -> B) (g : A -> B)
      (l : list A) :
  (forall n x, f (mk n x) = g x) ->
  forall first, map f (number_rows mk first l) = map g l.
Proof.
  intros H. induction l as [|x rest IH]; intros first; simpl; [reflexivity|].
  rewrite H, IH. reflexivity.
Qed.

(** The tables after the four inserts for [d] hold the bundle. *)
Lemma inserts_add_bundle (d : quiz_data) (t : tables) :
  let id := fst (insert_quiz d t) in
  let after := insert_topics id d
                 (insert_questions id d (insert_entities id d (snd (insert_quiz d t)))) in
  exists q,
    get_quiz_by_id id after = Some q
    /\ quiz_id (qo_quiz q) = id
    /\ bundle_added d t after (qo_quiz q).
Proof.
  cbv zeta. unfold get_quiz_by_id, insert_quiz.
  cbn [fst snd quizzes insert_topics insert_questions insert_entities].
  rewrite find_last.
  - eexists. split; [reflexivity|]. split; [reflexivity|].
    unfold bundle_added.
    cbn [qo_quiz quiz_id quizzes key_entities questions related_topics].
    split; [apply next_id_fresh|]. split; [reflexivity|]. split; [reflexivity|].
    eexists; eexists; eexists.
    split; [reflexivity|].
    split; [apply number_rows_map; reflexivity|].
    split; [reflexivity|].
    split; [apply number_rows_map; reflexivity|].
    split; [reflexivity|].
    apply number_rows_map; reflexivity.
  - intros x Hin. apply Nat.eqb_neq. intros Heq.
    apply (next_id_fresh (map quiz_id (quizzes t))). rewrite <- Heq.
    apply in_map. exact Hin.
  - apply Nat.eqb_refl.
Qed.

(** What a call of the coordinator comes to: with a URL that is stored, or
    a failing statement, it fails and commits nothing; otherwise it commits
    the tables after the four inserts. *)
Lemma save_quiz_to_db_cases (fault : statement -> bool) (d : quiz_data)
      (c : connection) :
  let id := fst (insert_quiz d (committed c)) in
  let after := insert_topics id d
                 (insert_questions id d
                    (insert_entities id d (snd (insert_quiz d (committed c))))) in
  (existsb (same_normalized_url (qd_url d)) (quizzes (committed c)) = true
   /\ save_quiz_to_db fault d c
      = (Failed DuplicateUrl, {| committed := committed c; pending := None |}))
  \/ (existsb (same_normalized_url (qd_url d)) (quizzes (committed c)) = false
      /\ (exists s, fault s = true)
      /\ save_quiz_to_db fault d c
         = (Failed PersistenceError, {| committed := committed c; pending := None |}))
  \/ (existsb (same_normalized_url (qd_url d)) (quizzes (committed c)) = false
      /\ (forall s, fault s = false)
      /\ exists q, get_quiz_by_id id after = Some q
                   /\ save_quiz_to_db fault d c
                      = (Done q, {| committed := after; pending := None |})).
Proof.
  cbv zeta.
  unfold save_quiz_to_db, write_quiz, exec_insert_quiz, begin, exec, commit, rollback.
  cbn [pending committed].
  destruct (existsb _ _) eqn:Hdup; [left; split; reflexivity|]. right.
  destruct (fault InsertQuiz) eqn:F1; [left; split; [reflexivity|]; split; eauto|].
  cbn [insert_quiz pending committed].
  destruct (fault InsertEntities) eqn:F2; [left; split; [reflexivity|]; split; eauto|].
  cbn [pending committed].
  destruct (fault InsertQuestions) eqn:F3; [left; split; [reflexivity|]; split; eauto|].
  cbn [pending committed].
  destruct (fault InsertTopics) eqn:F4; [left; split; [reflexivity|]; split; eauto|].
  cbn [pending committed].
  destruct (fault Commit) eqn:F5; [left; split; [reflexivity|]; split; eauto|].
  cbn [pending committed].
  right. split; [reflexivity|]. split; [intros []; assumption|].
  destruct (inserts_add_bundle d (committed c)) as [q [Hq _]].
  cbv zeta in Hq. unfold insert_quiz in Hq. cbn [fst snd] in Hq.
  exists q. split; [exact Hq|]. rewrite Hq. reflexivity.
Qed.

(** C6: the coordinator writes the parent record and the child collections
    in one transaction.  If the URL is already stored or any of the four
    writes or the commit fails, the call fails, the transaction is rolled
    back and the committed tables, which are what later reads see, are
    exactly those from before the call: no row of the bundle is visible.
    If nothing fails, the committed tables gain the parent row, with the
    fields of the bundle under a new key, and one row for every entity,
    question and related topic of the bundle, in order, with the content of
    the bundle and the key of the parent, and nothing else; the call
    returns the complete bundle as it is then read under that key. *)
Theorem save_quiz_to_db_all_or_nothing
  (fault : statement -> bool) (d : quiz_data) (c : connection) :
  pending (snd (save_quiz_to_db fault d c)) = None
  /\ ((((exists s, fault s = true) \/ ~ not_stored (qd_url d) (committed c))
       /\ (fst (save_quiz_to_db fault d c) = Failed PersistenceError
           \/ fst (save_quiz_to_db fault d c) = Failed DuplicateUrl)
       /\ committed (snd (save_quiz_to_db fault d c)) = committed c)
      \/ ((forall s, fault s = false) /\ not_stored (qd_url d) (committed c)
          /\ exists q,
               fst (save_quiz_to_db fault d c) = Done q
               /\ bundle_added d (committed c)
                               (committed (snd (save_quiz_to_db fault d c)))
                               (qo_quiz q)
               /\ get_quiz_by_id (quiz_id (qo_quiz q))
                                 (committed (snd (save_quiz_to_db fault d c)))
                  = Some q)).
Proof.
  unfold not_stored.
  destruct (save_quiz_to_db_cases fault d c)
    as [[Hdup H] | [[Hdup [Hf H]] | [Hdup [Hf [q [Hq H]]]]]]; rewrite H;
    cbn [fst snd pending committed]; (split; [reflexivity|]).
  - left. split; [right; congruence|]. split; [right|]; reflexivity.
  - left. split; [left; exact Hf|]. split; [left|]; reflexivity.
  - right. split; [exact Hf|]. split; [exact Hdup|].
    exists q. split; [reflexivity|].
    destruct (inserts_add_bundle d (committed c)) as [q' [Hq' [Hid Hadd]]].
    cbv zeta in Hq', Hid, Hadd. rewrite Hq in Hq'. injection Hq' as <-.
    split; [exact Hadd|]. rewrite Hid. exact Hq.
Qed.

(** At a failing run (the insert into [questions] fails) the tables are
    those from before, although the parent row had been inserted. *)
Lemma save_quiz_to_db_rolls_back :
  save_quiz_to_db fails_on_questions data_sample fresh_connection
  = (Failed PersistenceError, fresh_connection).
Proof. reflexivity. Qed.

(** A complete run stores the bundle: one parent row, and the child rows
    of the sample. *)
Lemma save_quiz_to_db_stores_bundle :
  committed (snd (save_quiz_to_db no_fault data_sample fresh_connection))
  = {| quizzes := [{| quiz_id := 1; quiz_url := url_article; quiz_title := "Sample";
                      quiz_summary := "About Paris."; quiz_sections := ["History"] |}];
       key_entities := [{| entity_id := 1; entity_quiz_id := 1;
                           entity_kind := locations; entity_name := "Paris" |}];
       questions := [{| question_id := 1; question_quiz_id := 1;
                        question_columns := question_sample |}];
       related_topics := [{| topic_id := 1; topic_quiz_id := 1;
                             topic_name := "Seine"; topic_url := None |}] |}.
Proof. reflexivity. Qed.

Variable min_words : nat.

Lemma check_duplicate_url_None (url : string) (t : tables) :
  check_duplicate_url url t = None <-> not_stored url t.
Proof.
  unfold check_duplicate_url, not_stored.
  destruct (find _ (quizzes t)) as [r|] eqn:Hf.
  - split; [discriminate|]. intros He. exfalso.
    apply find_some in Hf. destruct Hf as [Hin Hr].
    assert (existsb (same_normalized_url url) (quizzes t) = true)
      by (apply existsb_exists; eauto).
    congruence.
  - split; [|reflexivity]. intros _.
    destruct (existsb _ _) eqn:He; [|reflexivity].
    apply existsb_exists in He. destruct He as [r [Hin Hr]].
    rewrite (find_none _ _ Hf r Hin) in Hr. discriminate.
Qed.

(** A page below the minimum is rejected with [Empty]. *)
Lemma extract_content_short (w : collaborators) (url : string) (art : article) :
  fetch w url = Cleaned art -> word_count art < min_words ->
  extract_content min_words w url = Failed (ExtractionError Empty).
Proof.
  intros Hf Hw. unfold extract_content. rewrite Hf.
  apply Nat.ltb_lt in Hw. rewrite Hw. reflexivity.
Qed.

Lemma extract_content_Done (w : collaborators) (url : string) (art : article) :
  extract_content min_words w url = Done art ->
  fetch w url = Cleaned art /\ min_words <= word_count art.
Proof.
  unfold extract_content. destruct (fetch w url) as [k|a]; [discriminate|].
  destruct (word_count a <? min_words) eqn:Hw; [discriminate|].
  intros H. injection H as <-. apply Nat.ltb_ge in Hw. auto.
Qed.

(** A run stores nothing under the normalized form of a URL for which
    nothing is stored, unless it is a run for such a URL that found content
    of the minimum length. *)
Lemma generate_keeps_not_stored (w : collaborators) (url url' : string) (n : nat)
      (c : connection) :
  not_stored url (committed c) ->
  (spec_normalized_url url' = spec_normalized_url url ->
   forall art, fetch w url' = Cleaned art -> word_count art < min_words) ->
  not_stored url (committed (snd (generate min_words w url' n c))).
Proof.
  intros Hns Hshort. unfold generate.
  destruct (check_duplicate_url url' (committed c)) as [id|].
  - destruct (get_quiz_by_id id (committed c)); exact Hns.
  - destruct (extract_content min_words w url') as [art|e] eqn:Hx; [|exact Hns].
    apply extract_content_Done in Hx. destruct Hx as [Hf Hw].
    destruct (stages w art n) as [d|e]; [|exact Hns].
    destruct (save_quiz_to_db_cases (storage_fault w) (with_url url' d) c)
      as [[_ H] | [[_ [_ H]] | [_ [_ [q [_ H]]]]]]; rewrite H;
      cbn [snd committed]; try exact Hns.
    unfold not_stored in *. unfold insert_quiz.
    cbn [fst snd quizzes insert_topics insert_questions insert_entities].
    rewrite existsb_app, Hns. cbn [existsb orb].
    unfold same_normalized_url. cbn [quiz_url with_url qd_url].
    rewrite orb_false_r. apply String.eqb_neq. intros Heq.
    specialize (Hshort Heq art Hf). lia.
Qed.

Lemma serve_keeps_not_stored (url : string) (earlier : list request) :
  forall c, not_stored url (committed c) ->
            short_so_far min_words url earlier ->
            not_stored url (committed (serve min_words earlier c)).
Proof.
  induction earlier as [|r rest IH]; intros c Hns Hshort; [exact Hns|].
  cbn [serve]. apply IH.
  - apply generate_keeps_not_stored; [exact Hns|].
    intros Heq art Hf. apply (Hshort r art); [left; reflexivity | exact Heq | exact Hf].
  - intros r' art Hin. apply Hshort. right. exact Hin.
Qed.

Lemma generate_short (w : collaborators) (url : string) (n : nat) (art : article)
      (c : connection) :
  fetch w url = Cleaned art -> word_count art < min_words ->
  not_stored url (committed c) ->
  generate min_words w url n c = (Failed (ExtractionError Empty), c).
Proof.
  intros Hf Hw Hns. unfold generate.
  apply check_duplicate_url_None in Hns. rewrite Hns.
  rewrite (extract_content_short w url art Hf Hw). reflexivity.
Qed.

(** C7, as the pipeline has it: for a URL whose cleaned content has fewer words than
    the configured minimum, extraction fails with [ExtractionError{Empty}];
    a run of the pipeline that gets as far as extraction, because no bundle
    is stored under the normalized URL, returns that error, no bundle, and
    stores nothing; this is so after any earlier requests as long as the
    content was below the minimum, or not to be had, whenever it was asked
    for.  A URL under which a bundle is stored is answered with that
    bundle, whatever its content has become. *)
Theorem short_content_rejected
  (w : collaborators) (url : string) (numQuestions : nat) (art : article) :
  fetch w url = Cleaned art ->
  word_count art < min_words ->
  extract_content min_words w url = Failed (ExtractionError Empty)
  /\ (forall c,
        not_stored url (committed c) ->
        generate min_words w url numQuestions c = (Failed (ExtractionError Empty), c))
  /\ (forall earlier c,
        not_stored url (committed c) ->
        short_so_far min_words url earlier ->
        generate min_words w url numQuestions (serve min_words earlier c)
        = (Failed (ExtractionError Empty), serve min_words earlier c))
  /\ (forall c id q,
        check_duplicate_url url (committed c) = Some id ->
        get_quiz_by_id id (committed c) = Some q ->
        generate min_words w url numQuestions c = (Done q, c)).
Proof.
  intros Hf Hw. split; [exact (extract_content_short w url art Hf Hw)|].
  split; [|split].
  - intros c Hns. exact (generate_short w url numQuestions art c Hf Hw Hns).
  - intros earlier c Hns Hshort. apply (generate_short w url numQuestions art); auto.
    apply serve_keeps_not_stored; assumption.
  - intros c id q Hdup Hget. unfold generate. rewrite Hdup, Hget. reflexivity.
Qed.

End BackendResults.

Lemma short_content_rejected_witness :
  Backend.extract_content Backend.default_min_words (world_sample 250) url_stub
  = Backend.Failed (Backend.ExtractionError Backend.Empty)
  /\ Backend.generate Backend.default_min_words (world_sample 250) url_stub 5
                      after_first_request
     = (Backend.Failed (Backend.ExtractionError Backend.Empty), after_first_request).
Proof.
  destruct (short_content_rejected Backend.default_min_words (world_sample 250)
              url_stub 5 (page_sample 250) eq_refl ltac:(vm_compute; lia))
    as [Hx [Hrun _]].
  split; [exact Hx|]. apply Hrun. reflexivity.
Defined.

(** C7 as stated fails for a URL that has a stored bundle: the resolver
    comes before the extractor.  The article had 650 words when it was
    first asked for; now that its page has 250 words, below the default
    minimum of 300, extraction would fail with [Empty], and yet the request
    is answered with the stored bundle. *)
Lemma stored_url_answered_with_bundle :
  Backend.fetch (world_sample 250) url_article = Backend.Cleaned (page_sample 250)
  /\ Backend.word_count (page_sample 250) < Backend.default_min_words
  /\ Backend.extract_content Backend.default_min_words (world_sample 250) url_article
     = Backend.Failed (Backend.ExtractionError Backend.Empty)
  /\ exists q,
       Backend.generate Backend.default_min_words (world_sample 250) url_article 5
                        after_first_request
       = (Backend.Done q, after_first_request)
       /\ Backend.quiz_url (Backend.qo_quiz q) = url_article.
Proof.
  split; [reflexivity|]. split; [vm_compute; lia|]. split; [reflexivity|].
  eexists. split; reflexivity.
Qed.

(* ===================================================================== *)
(** ** Results on the cache                                              *)
(* ===================================================================== *)

Section CacheResults.

Variable md5_hexdigest : string -> string.
Variable expire_too_large : Z -> bool.

Local Abbreviation get_ := (Cache.get_cached_quiz md5_hexdigest).
Local Abbreviation cache_ := (Cache.cache_quiz md5_hexdigest expire_too_large).
Local Abbreviation cache_all_ := (Cache.cache_all md5_hexdigest expire_too_large).

(** The cache is keyed by the digest of the URL as submitted: an entry set
    for a URL is found again under that URL until it expires, and it is not
    seen under any URL with another digest. *)
Lemma get_cached_quiz_hit (url : string) (d : value) (ttl now later : Z)
      (store : Cache.redis) :
  (0 < ttl)%Z -> expire_too_large ttl = false ->
  get_ url later (snd (cache_ url d ttl now store))
  = if (later <? now + ttl)%Z then Some d else None.
Proof.
  intros Hpos Hfit. unfold Cache.get_cached_quiz, Cache.cache_quiz, Cache.redis_get,
    Cache.redis_setex.
  apply Z.ltb_lt in Hpos. rewrite Hpos, Hfit. cbn [andb negb snd find Cache.entry_key].
  rewrite String.eqb_refl. reflexivity.
Qed.

Lemma get_cached_quiz_same_digest (url url' : string) (later : Z) (store : Cache.redis) :
  md5_hexdigest url = md5_hexdigest url' ->
  get_ url later store = get_ url' later store.
Proof.
  intros H. unfold Cache.get_cached_quiz, Cache.cache_key. rewrite H. reflexivity.
Qed.

Lemma get_cached_quiz_other_digest (url url' : string) (d : value)
      (ttl now later : Z) (store : Cache.redis) :
  md5_hexdigest url' <> md5_hexdigest url ->
  get_ url' later (snd (cache_ url d ttl now store)) = get_ url' later store.
Proof.
  intros H. unfold Cache.get_cached_quiz, Cache.cache_quiz, Cache.redis_get,
    Cache.redis_setex.
  destruct ((0 <? ttl)%Z && negb (expire_too_large ttl)); [|reflexivity].
  cbn [snd find Cache.entry_key].
  destruct (String.eqb (Cache.cache_key md5_hexdigest url)
                       (Cache.cache_key md5_hexdigest url')) eqn:Heq; [|reflexivity].
  apply String.eqb_eq in Heq. unfold Cache.cache_key in Heq.
  simpl in Heq. injection Heq as Heq. congruence.
Qed.

Lemma cache_all_app (calls calls' : list Cache.caching) (store : Cache.redis) :
  cache_all_ (calls ++ calls') store = cache_all_ calls' (cache_all_ calls store).
Proof.
  revert store. induction calls as [|call rest IH]; intros store; [reflexivity|].
  cbn [app Cache.cache_all]. apply IH.
Qed.


End CacheResults.

(** X23: caching a quiz for one URL changes nothing for a URL with another
    digest: what [get_cached_quiz] finds for it in the store that
    [cache_quiz] leaves is what it found before. *)
Lemma get_cached_quiz_other_url (md5_hexdigest : string -> string)
      (expire_too_large : Z -> bool)
      (url url' : string) (d : value) (ttl now later : Z) (store : Cache.redis) :
  md5_hexdigest url' <> md5_hexdigest url ->
  Cache.get_cached_quiz md5_hexdigest url' later
    (snd (Cache.cache_quiz md5_hexdigest expire_too_large url d ttl now store))
  = Cache.get_cached_quiz md5_hexdigest url' later store.
Proof.
  intros H. unfold Cache.get_cached_quiz, Cache.cache_quiz, Cache.redis_get,
    Cache.redis_setex.
  destruct ((0 <? ttl)%Z && negb (expire_too_large ttl)); [|reflexivity].
  cbn [snd find Cache.entry_key].
  destruct (String.eqb (Cache.cache_key md5_hexdigest url)
                       (Cache.cache_key md5_hexdigest url')) eqn:Heq; [|reflexivity].
  apply String.eqb_eq in Heq. unfold Cache.cache_key in Heq.
  simpl in Heq. injection Heq as Heq. congruence.
Qed.

(** The digest on the test suite of RFC 1321, and on the two URLs below. *)
Lemma hexdigest_examples :
  Md5.hexdigest "" = "d41d8cd98f00b204e9800998ecf8427e"
  /\ Md5.hexdigest "abc" = "900150983cd24fb0d6963f7d28e17f72"
  /\ Md5.hexdigest "message digest" = "f96b697d7cb7938d525a2f31aaf161d0"
  /\ Md5.hexdigest url_article = "141fbc787408697a5d22735982be532a"
  /\ Md5.hexdigest url_article_slash = "e76231fa7046b2b91175fc9ef6f38492".
Proof.
  split; [vm_compute; reflexivity|].
  split; [vm_compute; reflexivity|].
  split; [vm_compute; reflexivity|].
  split; vm_compute; reflexivity.
Qed.



Lemma get_cached_quiz_other_url_witness :
  Cache.get_cached_quiz Md5.hexdigest url_article_slash 10
    (snd (Cache.cache_quiz Md5.hexdigest Samples.expire_limit_sample
                           url_article q_capital Cache.default_ttl 0 []))
  = Cache.get_cached_quiz Md5.hexdigest url_article_slash 10 [].
Proof.
  apply (get_cached_quiz_other_url Md5.hexdigest Samples.expire_limit_sample
           url_article url_article_slash q_capital Cache.default_ttl 0 10 []).
  vm_compute. discriminate.
Defined.

(* ===================================================================== *)
(** ** Results on the components                                         *)
(* ===================================================================== *)

Section DisplayResults.

Import QuizDisplay.

Lemma strict_eq_true (x y : js) : strict_eq x y = true <-> x = y.
Proof.
  destruct x, y; simpl; split; intros H; try discriminate; try reflexivity;
    try (injection H as <-).
  - apply Bool.eqb_prop in H. congruence.
  - destruct b; reflexivity.
  - apply Z.eqb_eq in H. congruence.
  - apply Z.eqb_refl.
  - apply String.eqb_eq in H. congruence.
  - apply String.eqb_refl.
Qed.

Lemma map_options_isCorrect (correct : js) (optionList : list js) :
  forall optIdx r,
    In r (map_options correct optIdx optionList) ->
    In (option_ r) optionList /\ isCorrect r = strict_eq (option_ r) correct.
Proof.
  induction optionList as [|o rest IH]; simpl; intros optIdx r Hin; [contradiction|].
  destruct Hin as [<- | Hin]; simpl; [auto|].
  destruct (IH _ _ Hin). auto.
Qed.

Lemma map_options_nth (correct : js) (optionList : list js) :
  forall optIdx i o,
    nth_error optionList i = Some o ->
    nth_error (map_options correct optIdx optionList) i
    = Some {| letter := fromCharCode (65 + (optIdx + i)); option_ := o;
              isCorrect := strict_eq o correct |}.
Proof.
  induction optionList as [|x rest IH]; intros optIdx i o H.
  - destruct i; discriminate.
  - destruct i as [|i]; cbn [nth_error map_options] in *.
    + injection H as ->. rewrite Nat.add_0_r. reflexivity.
    + rewrite (IH (S optIdx) i o H).
      replace (S optIdx + i) with (optIdx + S i) by lia. reflexivity.
Qed.

Lemma map_options_length (correct : js) (optionList : list js) :
  forall optIdx,
    List.length (map_options correct optIdx optionList) = List.length optionList.
Proof.
  induction optionList as [|x rest IH]; intros optIdx; simpl; [reflexivity|].
  rewrite IH. reflexivity.
Qed.

(** C9: the display renders every option of the question, in order and with
    its own text, and nothing else; the option at position [i] carries the
    letter [String.fromCharCode(65 + i)] and is highlighted and tagged as
    correct exactly when the option itself equals the [answer] field of the
    question.  So when the answer is one of the letters "A" to "D", an
    option is marked only if its whole text is that letter. *)
Theorem option_marked_iff_equal_to_answer (q : question) :
  List.length (render_options q)
  = List.length (match options q with Some l => l | None => [] end)
  /\ (forall i o,
        nth_error (match options q with Some l => l | None => [] end) i = Some o ->
        exists r,
          nth_error (render_options q) i = Some r
          /\ option_ r = o
          /\ letter r = fromCharCode (65 + i)
          /\ (isCorrect r = true <-> o = answer q))
  /\ (forall r,
        In r (render_options q) ->
        (isCorrect r = true <-> option_ r = answer q)
        /\ (forall l, In l answer_letters -> answer q = JStr l ->
                      isCorrect r = true -> option_ r = JStr l)).
Proof.
  unfold render_options. split; [apply map_options_length|]. split.
  - intros i o H. eexists. split; [apply map_options_nth; exact H|].
    cbn [option_ letter isCorrect Nat.add]. repeat split; try reflexivity;
      apply strict_eq_true.
  - intros r Hin.
    apply map_options_isCorrect in Hin. destruct Hin as [_ Hc].
    rewrite Hc. split; [apply strict_eq_true|].
    intros l _ Hl H. apply strict_eq_true in H. congruence.
Qed.

End DisplayResults.

Lemma option_marked_iff_equal_to_answer_witness :
  (exists r,
     nth_error (QuizDisplay.render_options display_text_sample) 0 = Some r
     /\ QuizDisplay.option_ r = QuizDisplay.JStr "Paris"
     /\ QuizDisplay.letter r = QuizDisplay.fromCharCode (65 + 0)
     /\ (QuizDisplay.isCorrect r = true
         <-> QuizDisplay.JStr "Paris" = QuizDisplay.answer display_text_sample))
  /\ (QuizDisplay.isCorrect
        {| QuizDisplay.letter := "A"; QuizDisplay.option_ := QuizDisplay.JStr "Paris";
           QuizDisplay.isCorrect := true |} = true
      <-> QuizDisplay.JStr "Paris" = QuizDisplay.answer display_text_sample).
Proof.
  split.
  - apply (proj1 (proj2 (option_marked_iff_equal_to_answer display_text_sample))
                 0 (QuizDisplay.JStr "Paris")).
    reflexivity.
  - apply (proj2 (proj2 (option_marked_iff_equal_to_answer display_text_sample))
                 {| QuizDisplay.letter := "A";
                    QuizDisplay.option_ := QuizDisplay.JStr "Paris";
                    QuizDisplay.isCorrect := true |}).
    simpl. left. reflexivity.
Defined.

(** With the answer given as a letter, as the wire schema has it, none of
    the four options of the sample is marked. *)
Lemma letter_answer_marks_no_option :
  map QuizDisplay.isCorrect (QuizDisplay.render_options display_sample)
  = [false; false; false; false]
  /\ map QuizDisplay.letter (QuizDisplay.render_options display_sample)
     = ["A"; "B"; "C"; "D"].
Proof. split; reflexivity. Qed.

Section HistoryResults.

Import QuizHistory.
Local Open Scope Z_scope.

Lemma pages_of_mono (a b : Z) : a <= b -> pages_of a <= pages_of b.
Proof.
  intros H. unfold pages_of, limit.
  assert (- b / 20 <= - a / 20) by (apply Z.div_le_mono; lia). lia.
Qed.

Lemma pages_of_positive (t : Z) : 1 <= t -> 1 <= pages_of t.
Proof.
  intros H. unfold pages_of, limit.
  assert (- t / 20 < 0) by (apply Z.div_lt_upper_bound; lia).
  lia.
Qed.

Lemma rendered_again_page (s s' : state) : page (rendered_again s s') = page s'.
Proof. unfold rendered_again. destruct (_ && _); reflexivity. Qed.

Lemma rendered_again_total (s s' : state) : total (rendered_again s s') = total s'.
Proof. unfold rendered_again. destruct (_ && _); reflexivity. Qed.

Lemma handle_within (e : event) (m : Z) (s : state) :
  within m s -> within (largest_total [e] m) (handle e s).
Proof.
  unfold within. intros [Hp Ht].
  destruct e; cbn [largest_total fold_left handle].
  - destruct (pagination_rendered s && negb (page s =? 1)); [|auto].
    rewrite rendered_again_page, rendered_again_total. simpl. split; lia.
  - destruct (pagination_rendered s && negb (page s =? totalPages s)) eqn:Hc; [|auto].
    rewrite rendered_again_page, rendered_again_total.
    apply andb_true_iff in Hc. destruct Hc as [Hr _].
    unfold pagination_rendered in Hr. apply andb_true_iff in Hr.
    destruct Hr as [_ Hr]. apply Z.ltb_lt in Hr.
    pose proof (pages_of_mono _ _ Ht) as Hm. unfold totalPages in *.
    simpl. unfold totalPages. split; lia.
  - rewrite rendered_again_page, rendered_again_total. simpl. split; lia.
  - simpl.
    pose proof (pages_of_mono m (Z.max m total_) (Z.le_max_l _ _)). split; lia.
  - simpl. split; lia.
Qed.

Lemma run_within (events : list event) :
  forall m s, within m s -> within (largest_total events m) (run events s).
Proof.
  induction events as [|e rest IH]; intros m s H; [exact H|].
  cbn [run]. change (largest_total (e :: rest) m)
    with (largest_total rest (largest_total [e] m)).
  apply IH. apply handle_within. exact H.
Qed.

Lemma largest_total_steady (t : Z) (events : list event) :
  forall m, steady_total t events -> largest_total events m <= Z.max m t.
Proof.
  induction events as [|e rest IH]; intros m Hs; [simpl; lia|].
  change (largest_total (e :: rest) m) with (largest_total rest (largest_total [e] m)).
  assert (Hrest : steady_total t rest)
    by (intros q t' Hin; apply (Hs q t'); right; exact Hin).
  specialize (IH (largest_total [e] m) Hrest).
  destruct e; cbn [largest_total fold_left] in *; try exact IH.
  assert (total_ = t) by (apply (Hs quizzes_ total_); left; reflexivity).
  subst. lia.
Qed.

Lemma run_total_steady (t : Z) (events : list event) :
  forall s, steady_total t events ->
            total (run events s) = total s \/ total (run events s) = t.
Proof.
  induction events as [|e rest IH]; intros s Hs; [left; reflexivity|].
  assert (Hrest : steady_total t rest)
    by (intros q t' Hin; apply (Hs q t'); right; exact Hin).
  cbn [run]. destruct (IH (handle e s) Hrest) as [H|H]; [|right; exact H].
  rewrite H. destruct e; cbn [handle].
  - destruct (_ && _); [rewrite rendered_again_total|]; left; reflexivity.
  - destruct (_ && _); [rewrite rendered_again_total|]; left; reflexivity.
  - rewrite rendered_again_total. left; reflexivity.
  - right. simpl. apply (Hs quizzes_ total_). left; reflexivity.
  - left; reflexivity.
Qed.

(** C10, as the component has it: from the state the component starts in, after any
    sequence of Previous and Next clicks, changes of the search term and
    answers of the history endpoint, the page is at least 1 and at most
    the larger of 1 and [ceil(m/20)], where [m] is the largest total an
    answer has reported so far.  While the answers report one and the same
    total of at least 1, the page lies within [1, ceil(total/20)], and so
    for the total the component holds once it holds one.  Previous never
    goes below 1, Next never beyond the last page of the total the
    component holds, and a change of the search term sets the page to 1. *)
Theorem page_stays_in_range (events : list event) :
  let s := run events mounted in
  1 <= page s <= Z.max 1 (pages_of (largest_total events 0))
  /\ (forall t, 1 <= t -> steady_total t events ->
                1 <= page s <= pages_of t
                /\ (total s <> 0 -> 1 <= page s <= totalPages s))
  /\ 1 <= page (previous s)
  /\ page (next s) <= totalPages s
  /\ forall value_, page (handle (SearchChange value_) s) = 1.
Proof.
  intros s.
  assert (Hinit : within 0 mounted) by (unfold within; simpl; lia).
  destruct (run_within events 0 mounted Hinit) as [Hr Ht]. fold s in Hr, Ht.
  split; [exact Hr|]. split; [|split; [|split]].
  - intros t Hpos Hs.
    pose proof (largest_total_steady t events 0 Hs) as Hl.
    pose proof (pages_of_mono _ _ Hl) as Hm.
    replace (Z.max 0 t) with t in Hm by lia.
    pose proof (pages_of_positive t Hpos) as Hp.
    assert (Hin : 1 <= page s <= pages_of t) by lia.
    split; [exact Hin|]. intros Hne.
    destruct (run_total_steady t events mounted Hs) as [H|H]; fold s in H.
    + simpl in H. contradiction.
    + unfold totalPages. rewrite H. exact Hin.
  - simpl. lia.
  - simpl. lia.
  - intros v. cbn [handle]. rewrite rendered_again_page. reflexivity.
Qed.

End HistoryResults.

Lemma page_stays_in_range_witness :
  (1 <= QuizHistory.page
          (QuizHistory.run
             (QuizHistory.Fetched [Js.Number 1] 45
              :: QuizHistory.next_rounds [Js.Number 1] 45 3 ++ [QuizHistory.Previous])
             QuizHistory.mounted)
   <= QuizHistory.pages_of 45)%Z.
Proof.
  apply (proj1 (proj1 (proj2 (page_stays_in_range
           (QuizHistory.Fetched [Js.Number 1] 45
            :: QuizHistory.next_rounds [Js.Number 1] 45 3 ++ [QuizHistory.Previous])))
           45%Z ltac:(lia)
           ltac:(intros q t H; vm_compute in H; intuition congruence))).
Defined.

(** C10 as stated fails in two ways.  With an empty history the page is 1
    and [ceil(0/20)] is 0.  And the total is read again with every page:
    with 45 quizzes the third click leads back to page 2, and when the
    answer for that page reports 15 quizzes, others having been deleted in
    the meantime, the component shows page 2 of 1. *)
Lemma history_page_out_of_range :
  (let s := QuizHistory.run [QuizHistory.Fetched [] 0] QuizHistory.mounted in
   QuizHistory.page s = 1 /\ QuizHistory.totalPages s = 0
   /\ ~ (1 <= QuizHistory.page s <= QuizHistory.totalPages s))%Z
  /\ (let s := QuizHistory.run
                 [QuizHistory.Fetched [Js.Number 1] 45;
                  QuizHistory.Next; QuizHistory.Fetched [Js.Number 1] 45;
                  QuizHistory.Next; QuizHistory.Fetched [Js.Number 1] 45;
                  QuizHistory.Previous; QuizHistory.Fetched [Js.Number 1] 15]
                 QuizHistory.mounted in
      QuizHistory.page s = 2 /\ QuizHistory.total s = 15
      /\ QuizHistory.totalPages s = 1
      /\ ~ (1 <= QuizHistory.page s <= QuizHistory.totalPages s))%Z.
Proof.
  split; cbv zeta.
  - repeat split; try reflexivity. vm_compute. intros [_ H]. apply H. reflexivity.
  - repeat split; try reflexivity. vm_compute. intros [_ H]. apply H. reflexivity.
Qed.

(* ===================================================================== *)
(** ** Results on [retry_with_backoff]                                   *)
(* ===================================================================== *)

Section RetryResults.

Variable A : Type.
Variable func : nat -> result A.
Variable time_sleep : Z -> option exn.
Variable max_attempts backoff_factor : Z.

(** [k] failing attempts that are not the last one, each followed by a
    sleep that [time.sleep] accepts, add their warnings and their waits and
    leave the rest of the range to run. *)
Lemma loop_skip_failures (k : nat) :
  forall start r st,
    (forall j, start <= j < start + k ->
               (exists e, func j = Raise e) /\ Z.of_nat j <> (max_attempts - 1)%Z
               /\ time_sleep (backoff_factor ^ Z.of_nat j)%Z = None) ->
    Retry.loop A func time_sleep max_attempts backoff_factor (seq start (k + r)) st
    = Retry.loop A func time_sleep max_attempts backoff_factor (seq (start + k) r)
        {| Retry.log := Retry.log st ++ Retry.warnings_from backoff_factor start k;
           Retry.sleeps := Retry.sleeps st ++ Retry.waits_from backoff_factor start k |}.
Proof.
  induction k as [|k IH]; intros start r st Hfail.
  - simpl. rewrite Nat.add_0_r. unfold Retry.warnings_from, Retry.waits_from. simpl.
    rewrite !app_nil_r. destruct st; reflexivity.
  - cbn [Nat.add seq Retry.loop].
    destruct (Hfail start) as [[e He] [Hlast Hsleep]]; [lia|]. rewrite He.
    destruct (Z.of_nat start =? max_attempts - 1)%Z eqn:Heq;
      [apply Z.eqb_eq in Heq; contradiction|].
    cbn [Retry.log Retry.sleeps].
    rewrite Hsleep. rewrite IH; [|intros j Hj; apply Hfail; lia].
    replace (S start + k) with (start + S k) by lia.
    unfold Retry.warnings_from, Retry.waits_from. cbn [seq map Retry.log Retry.sleeps].
    rewrite <- !app_assoc. reflexivity.
Qed.

(** X1: when the first [k] calls of [func] raise and call [k] returns, with
    [k] below [max_attempts], and [time.sleep] accepts the waits in
    between, [retry_with_backoff] returns that value after exactly [k]
    warnings and [k] sleeps of 1, b, b^2, ... seconds. *)
Theorem retry_returns_first_success (k : nat) (r : A) (st : Retry.effects) :
  (Z.of_nat k < max_attempts)%Z ->
  (forall j, j < k -> exists e, func j = Raise e) ->
  (forall j, j < k -> time_sleep (backoff_factor ^ Z.of_nat j)%Z = None) ->
  func k = Ok r ->
  Retry.retry_with_backoff A func time_sleep max_attempts backoff_factor st
  = (Ok (Some r),
     {| Retry.log := Retry.log st ++ Retry.warnings backoff_factor k;
        Retry.sleeps := Retry.sleeps st ++ Retry.waits backoff_factor k |}).
Proof.
  intros Hk Hfail Hsleep Hok. unfold Retry.retry_with_backoff.
  replace (Z.to_nat max_attempts) with (k + S (Z.to_nat max_attempts - S k)) by lia.
  rewrite loop_skip_failures.
  - cbn [Nat.add seq Retry.loop]. rewrite Hok. reflexivity.
  - intros j Hj. split; [apply Hfail; lia | split; [lia | apply Hsleep; lia]].
Qed.

(** X2: when all [max_attempts] calls raise and [time.sleep] accepts the
    waits in between, the exception of the last call is re-raised, after one
    warning and one sleep for each call but the last; with the default
    factor 2 the sleeps add up to [2 ^ (max_attempts - 1) - 1] seconds. *)
Theorem retry_exhausted_reraises_last (m : nat) (e : exn) (st : Retry.effects) :
  max_attempts = Z.of_nat (S m) ->
  (forall j, j < m -> exists e', func j = Raise e') ->
  (forall j, j < m -> time_sleep (backoff_factor ^ Z.of_nat j)%Z = None) ->
  func m = Raise e ->
  Retry.retry_with_backoff A func time_sleep max_attempts backoff_factor st
  = (Raise e,
     {| Retry.log := Retry.log st ++ Retry.warnings backoff_factor m;
        Retry.sleeps := Retry.sleeps st ++ Retry.waits backoff_factor m |})
  /\ (backoff_factor = 2%Z ->
      Retry.total (Retry.waits backoff_factor m) = (2 ^ Z.of_nat m - 1)%Z).
Proof.
  intros Hmax Hfail Hsleep Hlast. split.
  - unfold Retry.retry_with_backoff.
    replace (Z.to_nat max_attempts) with (m + 1) by lia.
    rewrite loop_skip_failures.
    + cbn [Nat.add seq Retry.loop]. rewrite Hlast.
      replace (Z.of_nat m =? max_attempts - 1)%Z with true; [reflexivity|].
      symmetry. apply Z.eqb_eq. lia.
    + intros j Hj. split; [apply Hfail; lia | split; [lia | apply Hsleep; lia]].
  - intros ->. clear. unfold Retry.waits, Retry.waits_from.
    induction m as [|m IH].
    + reflexivity.
    + rewrite seq_S, map_app. cbn [map Nat.add].
      unfold Retry.total in *. rewrite fold_right_app. cbn [fold_right].
      assert (Hshift : forall l a, fold_right Z.add a l = (fold_right Z.add 0 l + a)%Z).
      { induction l as [|x l IHl]; intros a; cbn [fold_right]; [lia|].
        rewrite (IHl a). lia. }
      rewrite Hshift, IH. rewrite Nat2Z.inj_succ, Z.pow_succ_r by lia. lia.
Qed.

Lemma loop_not_None (r : nat) :
  forall start st,
    max_attempts = Z.of_nat (start + S r) ->
    fst (Retry.loop A func time_sleep max_attempts backoff_factor (seq start (S r)) st)
    <> Ok None.
Proof.
  induction r as [|r IH]; intros start st Hmax; cbn [seq Retry.loop].
  - destruct (func start); cbn [fst]; [discriminate|].
    replace (Z.of_nat start =? max_attempts - 1)%Z with true
      by (symmetry; apply Z.eqb_eq; lia).
    cbn [fst]. discriminate.
  - destruct (func start); cbn [fst]; [discriminate|].
    destruct (Z.of_nat start =? max_attempts - 1)%Z; cbn [fst]; [discriminate|].
    destruct (time_sleep (backoff_factor ^ Z.of_nat start)%Z); cbn [fst]; [discriminate|].
    apply IH. lia.
Qed.

(** X3: [retry_with_backoff] leaves its loop without a result, returning
    [None] with [func] never called, exactly when [max_attempts] is zero or
    negative; with at least one attempt it returns what [func] returned or
    raises. *)
Theorem retry_returns_None_iff (st : Retry.effects) :
  fst (Retry.retry_with_backoff A func time_sleep max_attempts backoff_factor st)
  = Ok None
  <-> (max_attempts <= 0)%Z.
Proof.
  unfold Retry.retry_with_backoff. split.
  - intros H. destruct (Z_le_gt_dec max_attempts 0) as [Hle|Hgt]; [exact Hle|].
    exfalso. revert H.
    replace (Z.to_nat max_attempts) with (S (Z.to_nat max_attempts - 1)) by lia.
    apply loop_not_None. lia.
  - intros H. replace (Z.to_nat max_attempts) with 0 by lia. reflexivity.
Qed.

End RetryResults.

Lemma retry_returns_first_success_witness :
  Retry.retry_with_backoff nat Samples.third_time_lucky Samples.sleep_sample 3 2
                           Samples.no_effects
  = (Ok (Some 7),
     {| Retry.log := [] ++ Retry.warnings 2 2; Retry.sleeps := [] ++ Retry.waits 2 2 |}).
Proof.
  apply (retry_returns_first_success nat Samples.third_time_lucky Samples.sleep_sample
                                     3 2 2 7 Samples.no_effects).
  - lia.
  - intros j Hj. exists TypeError.
    destruct j as [|[|j]]; [reflexivity | reflexivity | lia].
  - intros j Hj. destruct j as [|[|j]]; [reflexivity | reflexivity | lia].
  - reflexivity.
Defined.

Lemma retry_exhausted_reraises_last_witness :
  Retry.retry_with_backoff nat Samples.always_failing Samples.sleep_sample 3 2
                           Samples.no_effects
  = (Raise IndexError,
     {| Retry.log := [] ++ Retry.warnings 2 2; Retry.sleeps := [] ++ Retry.waits 2 2 |})
  /\ (2%Z = 2%Z -> Retry.total (Retry.waits 2 2) = (2 ^ Z.of_nat 2 - 1)%Z).
Proof.
  apply (retry_exhausted_reraises_last nat Samples.always_failing Samples.sleep_sample
                                       3 2 2 IndexError Samples.no_effects).
  - reflexivity.
  - intros j _. exists IndexError. reflexivity.
  - intros j Hj. destruct j as [|[|j]]; [reflexivity | reflexivity | lia].
  - reflexivity.
Defined.

(** X4: the retry loop of [generate_quiz] is [retry_with_backoff] with three
    attempts applied to one attempt of the chain: as long as [time.sleep]
    accepts the two waits, of 1 and [backoff_factor] seconds, both return
    the same response or raise the same exception (the latter sleeping in
    between). *)
Theorem generate_quiz_is_retry_of_attempt
  (chain_invoke : prompt_inputs -> nat -> result value)
  (truncate_content : string -> string)
  (validate : value -> result bool)
  (content title_ : string) (num_questions : nat)
  (time_sleep : Z -> option exn)
  (backoff_factor : Z) (st : Retry.effects) :
  time_sleep 1%Z = None ->
  time_sleep backoff_factor = None ->
  fst (Retry.retry_with_backoff value
         (attempt_once chain_invoke truncate_content validate content title_ num_questions)
         time_sleep 3 backoff_factor st)
  = match generate_quiz chain_invoke truncate_content validate content title_
                        num_questions with
    | Ok r => Ok (Some r)
    | Raise e => Raise e
    end.
Proof.
  intros H0 H1. unfold Retry.retry_with_backoff, generate_quiz.
  change (Z.to_nat 3) with 3. cbn [seq Retry.loop retry_loop Nat.eqb].
  change (backoff_factor ^ Z.of_nat 0)%Z with 1%Z.
  replace (backoff_factor ^ Z.of_nat 1)%Z with backoff_factor
    by (change (Z.of_nat 1) with 1%Z; rewrite Z.pow_1_r; reflexivity).
  destruct (attempt_once _ _ _ _ _ _ 0); [reflexivity|].
  change (Z.of_nat 0 =? 3 - 1)%Z with false. cbv iota. rewrite H0.
  destruct (attempt_once _ _ _ _ _ _ 1); [reflexivity|].
  change (Z.of_nat 1 =? 3 - 1)%Z with false. cbv iota. rewrite H1.
  destruct (attempt_once _ _ _ _ _ _ 2); reflexivity.
Qed.

Lemma generate_quiz_is_retry_of_attempt_witness :
  fst (Retry.retry_with_backoff value
         (attempt_once (always (response_of [q_capital])) no_truncation
                       validate_quiz_json "Paris is the capital." "France" 5)
         Samples.sleep_sample 3 2 Samples.no_effects)
  = Ok (Some (response_of [q_capital])).
Proof.
  apply (generate_quiz_is_retry_of_attempt
           (always (response_of [q_capital])) no_truncation validate_quiz_json
           "Paris is the capital." "France" 5 Samples.sleep_sample 2
           Samples.no_effects).
  - reflexivity.
  - reflexivity.
Defined.

(* ===================================================================== *)
(** ** Results on [validate_url]                                         *)
(* ===================================================================== *)

Section SecurityResults.

Import Security.

Variable urlparse_netloc : string -> outcome string.

Lemma check_blocked_accepts (netloc : string) (blocked : list string) :
  check_blocked netloc blocked = Returns true
  <-> forall b, In b blocked -> String.prefix b netloc = false.
Proof.
  induction blocked as [|b rest IH]; simpl.
  - split; [intros _ b [] | reflexivity].
  - destruct (String.prefix b netloc) eqn:Hb.
    + split; [discriminate|]. intros H. specialize (H b (or_introl eq_refl)).
      congruence.
    + rewrite IH. split.
      * intros H b' [<- | Hin]; auto.
      * intros H b' Hin. apply H. right. exact Hin.
Qed.

Lemma check_blocked_never_False (netloc : string) (blocked : list string) :
  check_blocked netloc blocked <> Returns false.
Proof.
  induction blocked as [|b rest IH]; simpl; [discriminate|].
  destruct (String.prefix b netloc); [discriminate | exact IH].
Qed.

(** X5: [validate_url] returns [True] exactly for a URL that starts with
    http:// or https:// and whose network location starts with none of the
    seven blocked strings; it never returns [False]: every other URL raises
    [ValueError]. *)
Theorem validate_url_accepts_iff (url : string) :
  (validate_url urlparse_netloc url = Returns true
   <-> (String.prefix "http://" url = true \/ String.prefix "https://" url = true)
       /\ exists netloc, urlparse_netloc url = Returns netloc
                         /\ forall b, In b blocked_hosts -> String.prefix b netloc = false)
  /\ validate_url urlparse_netloc url <> Returns false.
Proof.
  unfold validate_url. split.
  - destruct (String.prefix "http://" url || String.prefix "https://" url) eqn:Hs;
      cbn [negb].
    + apply orb_true_iff in Hs.
      destruct (urlparse_netloc url) as [netloc|m].
      * rewrite check_blocked_accepts. split.
        -- intros H. split; [exact Hs|]. exists netloc. auto.
        -- intros [_ [n [Hn H]]]. injection Hn as <-. exact H.
      * split; [discriminate|]. intros [_ [n [Hn _]]]. discriminate.
    + split; [discriminate|]. intros [H _].
      apply orb_false_iff in Hs. destruct Hs as [H1 H2].
      destruct H as [H|H]; congruence.
  - destruct (negb _); [discriminate|].
    destruct (urlparse_netloc url); [apply check_blocked_never_False | discriminate].
Qed.

(** X6: only the second octet 16 of the private range 172.16.0.0/12 is
    blocked: a well-formed URL whose network location starts with 172.17.
    up to 172.31. is accepted, whatever follows. *)
Theorem validate_url_accepts_172_17_to_31 (url p rest : string) :
  String.prefix "http://" url = true \/ String.prefix "https://" url = true ->
  In p private_172_prefixes ->
  urlparse_netloc url = Returns (p ++ rest)%string ->
  validate_url urlparse_netloc url = Returns true.
Proof.
  intros Hs Hp Hn. unfold validate_url.
  replace (String.prefix "http://" url || String.prefix "https://" url) with true
    by (symmetry; apply orb_true_iff; exact Hs).
  cbn [negb]. rewrite Hn. apply check_blocked_accepts.
  intros b Hb. unfold private_172_prefixes in Hp. unfold blocked_hosts in Hb.
  cbn [In] in Hp, Hb.
  repeat (destruct Hp as [<- | Hp]; [
    repeat (destruct Hb as [<- | Hb]; [reflexivity|]); contradiction |]).
  contradiction.
Qed.

End SecurityResults.

Lemma validate_url_accepts_172_17_to_31_witness :
  Security.validate_url Samples.netloc_sample "http://172.20.0.5:8080/admin"
  = Security.Returns true.
Proof.
  apply (validate_url_accepts_172_17_to_31 Samples.netloc_sample
           "http://172.20.0.5:8080/admin" "172.20." "0.5:8080").
  - left. reflexivity.
  - unfold Security.private_172_prefixes. cbn [In]. do 3 right. left. reflexivity.
  - reflexivity.
Defined.

(* ===================================================================== *)
(** ** Results on [assign_questions_to_sections]                         *)
(* ===================================================================== *)

Section GroupingResults.

Import Grouping.

Variable calculate_similarity : value -> value -> result QArith_base.Q.

Lemma lookup_set_item_same (key : string) (v : value) (items : list (string * value)) :
  lookup key (set_item key v items) = Some v.
Proof.
  induction items as [|[k old] rest IH]; simpl.
  - rewrite String.eqb_refl. reflexivity.
  - destruct (String.eqb key k) eqn:Hk; simpl; rewrite Hk; auto.
Qed.

Lemma lookup_set_item_other (key k' : string) (v : value) (items : list (string * value)) :
  k' <> key -> lookup k' (set_item key v items) = lookup k' items.
Proof.
  intros Hne. induction items as [|[k old] rest IH]; simpl.
  - replace (String.eqb k' key) with false; [reflexivity|].
    symmetry. apply String.eqb_neq. exact Hne.
  - destruct (String.eqb key k) eqn:Hk; simpl.
    + apply String.eqb_eq in Hk. subst k.
      replace (String.eqb k' key) with false; [reflexivity|].
      symmetry. apply String.eqb_neq. exact Hne.
    + rewrite IH. reflexivity.
Qed.

Lemma best_match_origin (q : value) (sections_ : list value) :
  forall cur score h,
    best_match calculate_similarity q sections_ cur score = Ok h ->
    h = cur \/ exists s, In s sections_ /\ getitem s "heading" = Ok h.
Proof.
  induction sections_ as [|s rest IH]; simpl; intros cur score h H.
  - injection H as <-. left. reflexivity.
  - inv_bind H. inv_bind H. inv_bind H.
    destruct (exceeds a1 score).
    + inv_bind H. destruct (IH _ _ _ H) as [-> | [s' [Hin Hh]]]; eauto.
    + destruct (IH _ _ _ H) as [-> | [s' [Hin Hh]]]; eauto.
Qed.

Lemma assign_one_with_section (q q' : value) (sections_ : list value) :
  assign_one calculate_similarity q sections_ = Ok q' -> with_section sections_ q q'.
Proof.
  unfold assign_one. intros H. inv_bind H.
  destruct q as [| | | | |items]; simpl in H; try discriminate.
  injection H as <-. exists items, a. repeat split.
  - simpl. rewrite lookup_set_item_same. reflexivity.
  - intros k Hk. simpl. rewrite lookup_set_item_other by exact Hk. reflexivity.
  - destruct (best_match_origin _ _ _ _ _ Ha) as [-> | H]; auto.
Qed.

Lemma assign_loop_Forall2 (sections_ : list value) (todo : list value) :
  forall done out,
    assign_loop calculate_similarity done todo sections_ = (Ok tt, out) ->
    exists news, out = done ++ news /\ Forall2 (with_section sections_) todo news.
Proof.
  induction todo as [|q rest IH]; simpl; intros done out H.
  - injection H as <-. exists []. rewrite app_nil_r. split; [reflexivity | constructor].
  - destruct (assign_one calculate_similarity q sections_) as [q'|e] eqn:Hq;
      [|discriminate].
    destruct (IH _ _ H) as [news [-> Hall]].
    exists (q' :: news). rewrite <- app_assoc. split; [reflexivity|].
    constructor; [apply assign_one_with_section; exact Hq | exact Hall].
Qed.

(** X7: when [assign_questions_to_sections] returns, it returns as many
    questions as it was given, in the same order, each one the dict it was
    with only its ['section'] entry set, to [None] or to the heading of one
    of the given sections; every other key keeps its value. *)
Theorem assign_sets_only_section (questions_ sections_ out : list value) :
  fst (assign_questions_to_sections calculate_similarity questions_ sections_) = Ok out ->
  Forall2 (with_section sections_) questions_ out
  /\ List.length out = List.length questions_.
Proof.
  unfold assign_questions_to_sections. intros H.
  destruct (assign_loop calculate_similarity [] questions_ sections_) as [[[]|e] upd] eqn:Hl;
    simpl in H; [|discriminate].
  injection H as <-.
  destruct (assign_loop_Forall2 _ _ _ _ Hl) as [news [-> Hall]]. simpl.
  split; [exact Hall|]. symmetry. eapply Forall2_length. exact Hall.
Qed.

Lemma assign_loop_no_sections (todo : list value) :
  Forall is_dict todo ->
  forall done,
    exists news,
      assign_loop calculate_similarity done todo [] = (Ok tt, done ++ news)
      /\ Forall2 (fun q q' => setitem q "section" VNone = Ok q') todo news.
Proof.
  induction 1 as [|q rest [items ->] _ IH]; intros done; simpl.
  - exists []. rewrite app_nil_r. split; [reflexivity | constructor].
  - destruct (IH (done ++ [VDict (set_item "section" VNone items)])) as [news [Hl Hall]].
    exists (VDict (set_item "section" VNone items) :: news).
    rewrite Hl, <- app_assoc. split; [reflexivity|].
    constructor; [reflexivity | exact Hall].
Qed.

(** X8: with no article section every question, whatever its keys, gets
    the section [None]: the text of the question is not read, so a question
    without ['question'] raises no [KeyError] here. *)
Theorem assign_without_sections (questions_ : list value) :
  Forall is_dict questions_ ->
  exists out,
    assign_questions_to_sections calculate_similarity questions_ [] = (Ok out, out)
    /\ Forall2 (fun q q' => setitem q "section" VNone = Ok q') questions_ out.
Proof.
  intros Hd. destruct (assign_loop_no_sections questions_ Hd []) as [news [Hl Hall]].
  exists news. unfold assign_questions_to_sections. rewrite Hl. simpl. auto.
Qed.

Lemma exceeds_true (score best : QArith_base.Q) :
  exceeds score best = true -> QArith_base.Qlt best score.
Proof.
  unfold exceeds. intros H. apply negb_true_iff in H.
  apply QArith_base.Qnot_le_lt. intros Hle.
  apply QArith_base.Qle_bool_iff in Hle. congruence.
Qed.

Lemma exceeds_false (score best : QArith_base.Q) :
  exceeds score best = false -> QArith_base.Qle score best.
Proof.
  unfold exceeds. intros H. apply negb_false_iff in H.
  apply QArith_base.Qle_bool_iff. exact H.
Qed.

Lemma score_of_unique (q s : value) (x y : QArith_base.Q) :
  score_of calculate_similarity q s x -> score_of calculate_similarity q s y -> x = y.
Proof.
  intros [t [c [Ht [Hc Hx]]]] [t' [c' [Ht' [Hc' Hy]]]]. congruence.
Qed.

Lemma best_match_best_from (q : value) (sections_ : list value) :
  forall cur best h,
    best_match calculate_similarity q sections_ cur best = Ok h ->
    best_from calculate_similarity q sections_ cur best h.
Proof.
  induction sections_ as [|s rest IH]; simpl; intros cur best h H.
  - injection H as <-. left. split; [reflexivity | intros s x []].
  - inv_bind H. inv_bind H. inv_bind H.
    assert (Hs : score_of calculate_similarity q s a1) by (exists a, a0; auto).
    destruct (exceeds a1 best) eqn:Hx.
    + apply exceeds_true in Hx. inv_bind H.
      destruct (IH _ _ _ H) as [[-> Hall] | [before [s' [after [x [-> [Hh [Hsc [Hlt [Hb Haf]]]]]]]]]].
      * right. exists [], s, rest, a1. repeat split; auto. intros s' y [].
      * right. exists (s :: before), s', after, x. repeat split; auto.
        -- eapply QArith_base.Qlt_trans; eauto.
        -- intros s'' y [<- | Hin] Hy; [|eauto].
           rewrite (score_of_unique _ _ _ _ Hy Hs). exact Hlt.
    + apply exceeds_false in Hx.
      destruct (IH _ _ _ H) as [[-> Hall] | [before [s' [after [x [-> [Hh [Hsc [Hlt [Hb Haf]]]]]]]]]].
      * left. split; [reflexivity|]. intros s' y [<- | Hin] Hy; [|eauto].
        rewrite (score_of_unique _ _ _ _ Hy Hs). exact Hx.
      * right. exists (s :: before), s', after, x. repeat split; auto.
        intros s'' y [<- | Hin] Hy; [|eauto].
        rewrite (score_of_unique _ _ _ _ Hy Hs).
        eapply QArith_base.Qle_lt_trans; eauto.
Qed.

(** X9: the section a question is given is the first one of highest score:
    its score is positive, above that of every section before it and at
    least that of every section after it; when no section scores above 0
    the question gets [None]. *)
Theorem assign_picks_first_best (q q' : value) (sections_ : list value) :
  assign_one calculate_similarity q sections_ = Ok q' ->
  exists h, getitem q' "section" = Ok h
            /\ best_from calculate_similarity q sections_ VNone (QArith_base.Qmake 0 1) h.
Proof.
  unfold assign_one. intros H. inv_bind H.
  exists a. split.
  - destruct q; simpl in H; try discriminate. injection H as <-.
    simpl. rewrite lookup_set_item_same. reflexivity.
  - apply best_match_best_from. exact Ha.
Qed.

End GroupingResults.

Lemma assign_sets_only_section_witness :
  exists out,
    Forall2 (Grouping.with_section Samples.sections_sample) [q_capital; q_painter] out
    /\ List.length out = 2.
Proof.
  eexists.
  apply (assign_sets_only_section Samples.shared_words [q_capital; q_painter]
                                  Samples.sections_sample).
  vm_compute. reflexivity.
Defined.

Lemma assign_without_sections_witness :
  exists out,
    Grouping.assign_questions_to_sections Samples.shared_words
      [VDict [("id", VInt 1)]; q_painter] [] = (Ok out, out)
    /\ Forall2 (fun q q' => Grouping.setitem q "section" VNone = Ok q')
               [VDict [("id", VInt 1)]; q_painter] out.
Proof.
  apply (assign_without_sections Samples.shared_words
           [VDict [("id", VInt 1)]; q_painter]).
  repeat constructor; eexists; reflexivity.
Defined.

Lemma assign_picks_first_best_witness :
  exists h, getitem (VDict (Grouping.set_item "section" (VStr "History")
                              [("question", VStr "What is the capital of France?")]))
                    "section" = Ok h
            /\ Grouping.best_from Samples.shared_words
                 (VDict [("question", VStr "What is the capital of France?")])
                 Samples.sections_sample VNone (QArith_base.Qmake 0 1) h.
Proof.
  apply (assign_picks_first_best Samples.shared_words
           (VDict [("question", VStr "What is the capital of France?")])
           (VDict (Grouping.set_item "section" (VStr "History")
                     [("question", VStr "What is the capital of France?")]))
           Samples.sections_sample).
  vm_compute. reflexivity.
Defined.

(* ===================================================================== *)
(** ** Further results on validation and generation                      *)
(* ===================================================================== *)

Lemma check_fields_complete (i : nat) (q : value) (fields : list string) :
  (forall field, In field fields -> contains field q = Ok true) ->
  check_fields i q fields = Ok tt.
Proof.
  induction fields as [|f rest IH]; simpl; intros H; [reflexivity|].
  rewrite (H f (or_introl eq_refl)). simpl. apply IH. intros field Hin.
  apply H. right. exact Hin.
Qed.

Lemma In_one_of (s : string) (literals : list string) :
  In s literals -> one_of (VStr s) literals = true.
Proof.
  intros H. simpl. apply existsb_exists. exists s. split; [exact H|].
  apply String.eqb_refl.
Qed.

Lemma well_formed_question_accepted (i : nat) (q : value) :
  well_formed_question q -> validate_question i q = Ok tt.
Proof.
  intros [Hf [o [a [k [d [Ho [Hl [Ha [Hin [_ [_ [_ [Hd Hdin]]]]]]]]]]]]].
  unfold validate_question. rewrite (check_fields_complete i q quiz_fields Hf).
  cbn [Py.bind]. rewrite Ho. cbn [Py.bind]. rewrite Hl. cbn [Py.bind Nat.eqb negb].
  rewrite Ha. cbn [Py.bind]. rewrite (In_one_of a _ Hin). cbn [negb].
  rewrite Hd. cbn [Py.bind]. rewrite (In_one_of d _ Hdin). reflexivity.
Qed.

Lemma well_formed_questions_accepted (qs : list value) :
  Forall well_formed_question qs -> forall i, validate_questions i qs = Ok tt.
Proof.
  induction 1 as [|q rest Hq _ IH]; intros i; simpl; [reflexivity|].
  rewrite (well_formed_question_accepted i q Hq). simpl. apply IH.
Qed.


Lemma contains_error (k : string) (c : value) (e : exn) :
  contains k c = Raise e -> e = TypeError.
Proof. destruct c; simpl; intros H; congruence. Qed.

Lemma len_error (v : value) (e : exn) : len v = Raise e -> e = TypeError.
Proof. destruct v; simpl; intros H; congruence. Qed.

Lemma iter_error (v : value) (e : exn) : iter v = Raise e -> e = TypeError.
Proof. destruct v; simpl; intros H; congruence. Qed.

(** Indexing with a key that [in] found raises no [KeyError]. *)
Lemma getitem_error_after_contains (c : value) (k : string) (e : exn) :
  contains k c = Ok true -> getitem c k = Raise e -> e = TypeError.
Proof.
  destruct c; simpl; intros Hc H; try congruence.
  destruct (lookup k items); congruence.
Qed.

Lemma check_fields_error (i : nat) (q : value) (fields : list string) (e : exn) :
  check_fields i q fields = Raise e -> schema_error e.
Proof.
  induction fields as [|f rest IH]; simpl; intros H; [discriminate|].
  destruct (contains f q) as [[|]|e'] eqn:Hc; simpl in H.
  - auto.
  - injection H as <-. left. eauto.
  - injection H as <-. right. eapply contains_error; eauto.
Qed.

Lemma validate_question_error (i : nat) (q : value) (e : exn) :
  validate_question i q = Raise e -> schema_error e.
Proof.
  unfold validate_question. intros H.
  destruct (check_fields i q quiz_fields) as [[]|e0] eqn:Hf; cbn [Py.bind] in H;
    [|injection H as <-; eapply check_fields_error; eauto].
  pose proof (check_fields_Ok _ _ _ Hf) as Hin.
  assert (Hkey : forall k, In k quiz_fields ->
                           forall e', getitem q k = Raise e' -> e' = TypeError)
    by (intros k Hk e' He; eapply getitem_error_after_contains; eauto).
  destruct (getitem q "options") as [o|e0] eqn:Ho; cbn [Py.bind] in H;
    [|injection H as <-; right; apply (Hkey "options"); simpl; auto].
  destruct (len o) as [n|e0] eqn:Hl; cbn [Py.bind] in H;
    [|injection H as <-; right; eapply len_error; eauto].
  destruct (negb (n =? 4)); [injection H as <-; left; eauto|].
  destruct (getitem q "answer") as [a|e0] eqn:Ha; cbn [Py.bind] in H;
    [|injection H as <-; right; apply (Hkey "answer"); simpl; auto].
  destruct (negb (one_of a ["A"; "B"; "C"; "D"])); [injection H as <-; left; eauto|].
  destruct (getitem q "difficulty") as [d|e0] eqn:Hd; cbn [Py.bind] in H;
    [|injection H as <-; right; apply (Hkey "difficulty"); simpl; auto].
  destruct (negb (one_of d ["easy"; "medium"; "hard"]));
    [injection H as <-; left; eauto | discriminate].
Qed.

Lemma validate_questions_error (qs : list value) :
  forall i e, validate_questions i qs = Raise e -> schema_error e.
Proof.
  induction qs as [|q rest IH]; simpl; intros i e H; [discriminate|].
  destruct (validate_question i q) as [[]|e0] eqn:Hq; cbn [Py.bind] in H.
  - eapply IH; eauto.
  - injection H as <-. eapply validate_question_error; eauto.
Qed.

(** X11: whatever JSON value it is given, [validate_quiz_json] returns
    [True] or raises [ValueError] or [TypeError]: each key is tested with
    [in] before it is indexed, so a malformed response never escapes as a
    [KeyError], and the function never returns [False]. *)
Theorem validate_quiz_json_raises_only_schema_errors (response : value) :
  validate_quiz_json response = Ok true
  \/ exists e, validate_quiz_json response = Raise e /\ schema_error e.
Proof.
  destruct (validate_quiz_json response) as [b|e] eqn:H.
  - left. apply validate_quiz_json_Ok in H. destruct H as [-> _]. reflexivity.
  - right. exists e. split; [reflexivity|].
    unfold validate_quiz_json in H.
    destruct (contains "quiz" response) as [[|]|e0] eqn:Hc; cbn [Py.bind negb] in H.
    + destruct (getitem response "quiz") as [quiz|e0] eqn:Hg; cbn [Py.bind] in H;
        [|injection H as <-; right; eapply getitem_error_after_contains; eauto].
      destruct (iter quiz) as [qs|e0] eqn:Hi; cbn [Py.bind] in H;
        [|injection H as <-; right; eapply iter_error; eauto].
      destruct (validate_questions 0 qs) as [[]|e0] eqn:Hv; cbn [Py.bind] in H;
        [discriminate|].
      injection H as <-. eapply validate_questions_error; eauto.
    + injection H as <-. left. eauto.
    + injection H as <-. right. eapply contains_error; eauto.
Qed.

Lemma validate_question_index (i : nat) (q : value) (v : violation) :
  validate_question i q = Raise (Py.ValueError v) -> violation_index v = Some i.
Proof.
  unfold validate_question. intros H.
  assert (Hcf : forall fields, check_fields i q fields = Raise (Py.ValueError v) ->
                               violation_index v = Some i).
  { induction fields as [|f rest IH]; simpl; intros Hc; [discriminate|].
    destruct (contains f q) as [[|]|e'] eqn:Hcont; simpl in Hc.
    - auto.
    - injection Hc as <-. reflexivity.
    - injection Hc as ->. apply contains_error in Hcont. discriminate. }
  destruct (check_fields i q quiz_fields) as [[]|e0] eqn:Hf; cbn [Py.bind] in H;
    [|injection H as ->; apply (Hcf quiz_fields Hf)].
  pose proof (check_fields_Ok _ _ _ Hf) as Hin.
  assert (Hkey : forall k e', In k quiz_fields -> getitem q k = Raise e' ->
                              e' <> Py.ValueError v).
  { intros k e' Hk He ->.
    pose proof (getitem_error_after_contains _ _ _ (Hin k Hk) He). discriminate. }
  destruct (getitem q "options") as [o|e0] eqn:Ho; cbn [Py.bind] in H;
    [|injection H as ->; exfalso; apply (Hkey "options" _ ltac:(simpl; auto) Ho);
      reflexivity].
  destruct (len o) as [n|e0] eqn:Hl; cbn [Py.bind] in H;
    [|injection H as ->; apply len_error in Hl; discriminate].
  destruct (negb (n =? 4)); [injection H as <-; reflexivity|].
  destruct (getitem q "answer") as [a|e0] eqn:Ha; cbn [Py.bind] in H;
    [|injection H as ->; exfalso; apply (Hkey "answer" _ ltac:(simpl; auto) Ha);
      reflexivity].
  destruct (negb (one_of a ["A"; "B"; "C"; "D"])); [injection H as <-; reflexivity|].
  destruct (getitem q "difficulty") as [d|e0] eqn:Hd; cbn [Py.bind] in H;
    [|injection H as ->; exfalso; apply (Hkey "difficulty" _ ltac:(simpl; auto) Hd);
      reflexivity].
  destruct (negb (one_of d ["easy"; "medium"; "hard"]));
    [injection H as <-; reflexivity | discriminate].
Qed.

Lemma validate_questions_first_invalid (qs : list value) :
  forall start v i,
    validate_questions start qs = Raise (Py.ValueError v) ->
    violation_index v = Some i ->
    exists k q, i = start + k /\ nth_error qs k = Some q
                /\ Forall well_formed_question (firstn k qs)
                /\ ~ well_formed_question q.
Proof.
  induction qs as [|q rest IH]; simpl; intros start v i H Hi; [discriminate|].
  destruct (validate_question start q) as [[]|e] eqn:Hq; cbn [Py.bind] in H.
  - destruct (IH _ _ _ H Hi) as [k [q' [-> [Hn [Hall Hbad]]]]].
    exists (S k), q'. split; [lia|]. split; [exact Hn|]. split; [|exact Hbad].
    simpl. constructor; [eapply validate_question_Ok; eauto | exact Hall].
  - injection H as ->. pose proof (validate_question_index _ _ _ Hq) as Hidx.
    assert (i = start) by congruence. subst i.
    exists 0, q. split; [lia|]. split; [reflexivity|]. split; [constructor|].
    intros Hwf. rewrite (well_formed_question_accepted start q Hwf) in Hq.
    discriminate.
Qed.



(* ===================================================================== *)
(** ** Further results on grounding and duplicate detection              *)
(* ===================================================================== *)

Lemma no_terms_raises_witness :
  validate_question_grounding lower_sample words_of
    (VDict [("question", VStr "")]) article_sample []
  = (Raise ZeroDivisionError, []).
Proof.
  apply (no_terms_raises lower_sample words_of (VDict [("question", VStr "")]) (VStr "")
                         article_sample []).
  - reflexivity.
  - reflexivity.
Defined.

Lemma grounded_question_not_flagged_witness :
  validate_question_grounding lower_sample words_of
    (VDict [("question", VStr "Paris Seine Guernica Picasso")]) article_sample []
  = (Ok true, []).
Proof.
  apply (grounded_question_not_flagged lower_sample words_of
           (VDict [("question", VStr "Paris Seine Guernica Picasso")])
           (VStr "Paris Seine Guernica Picasso") article_sample
           ["Paris"; "Seine"; "Guernica"; "Picasso"] []).
  - reflexivity.
  - reflexivity.
  - discriminate.
  - vm_compute. lia.
Defined.

Section DuplicateResults.

Variable ratio : value -> value -> result bool.

Lemma subseq_refl {A : Type} (l : list A) : subseq l l.
Proof. induction l; constructor; assumption. Qed.

Lemma subseq_trans {A : Type} (l3 : list A) :
  forall l1 l2, subseq l1 l2 -> subseq l2 l3 -> subseq l1 l3.
Proof.
  induction l3 as [|x l3 IH]; intros l1 l2 H12 H23.
  - inversion H23; subst. exact H12.
  - inversion H23; subst.
    + constructor. eapply IH; eauto.
    + inversion H12; subst.
      * constructor. eapply IH; eauto.
      * apply subseq_keep. eapply IH; eauto.
Qed.

Lemma remove_at_subseq {A : Type} (l : list A) : forall j, subseq (remove_at j l) l.
Proof.
  induction l as [|x rest IH]; intros [|j]; simpl.
  - constructor.
  - constructor.
  - apply subseq_skip, subseq_refl.
  - apply subseq_keep, IH.
Qed.

Lemma remove_at_shorter {A : Type} (l : list A) :
  forall j, j < List.length l -> S (List.length (remove_at j l)) = List.length l.
Proof.
  induction l as [|x rest IH]; intros [|j] Hj; simpl in *; try lia.
  rewrite IH; lia.
Qed.

(** Each pop of the inner loop comes with one warning. *)
Lemma inner_loop_accounts (slice : list value) :
  forall i q1 j st st',
    inner_loop ratio i q1 slice j st = (Ok tt, st') ->
    subseq (Duplicates.questions st') (Duplicates.questions st)
    /\ List.length (Duplicates.log st') + List.length (Duplicates.questions st')
       = List.length (Duplicates.log st) + List.length (Duplicates.questions st)
    /\ exists added, Duplicates.log st' = Duplicates.log st ++ added.
Proof.
  induction slice as [|q2 rest IH]; intros i q1 j st st' H; cbn [inner_loop] in H.
  - injection H as <-. split; [apply subseq_refl|]. split; [reflexivity|].
    exists []. rewrite app_nil_r. reflexivity.
  - destruct (t1 <- getitem q1 "question" ;; t2 <- getitem q2 "question" ;; ratio t1 t2)
      as [[|]|e]; [| eapply IH; eauto | discriminate].
    unfold pop in H. destruct (j <? List.length (Duplicates.questions st)) eqn:Hj;
      [|discriminate].
    apply Nat.ltb_lt in Hj.
    destruct (IH _ _ _ _ _ H) as [Hsub [Hlen [added Hlog]]]. cbn in Hsub, Hlen, Hlog.
    split; [eapply subseq_trans; [exact Hsub | apply remove_at_subseq]|].
    split.
    + rewrite Hlen, length_app. simpl.
      pose proof (remove_at_shorter (Duplicates.questions st) j Hj). lia.
    + exists ([very_similar i j] ++ added). rewrite Hlog, <- app_assoc. reflexivity.
Qed.

Lemma outer_loop_accounts (fuel : nat) :
  forall i st st',
    outer_loop ratio fuel i st = (Ok tt, st') ->
    subseq (Duplicates.questions st') (Duplicates.questions st)
    /\ List.length (Duplicates.log st') + List.length (Duplicates.questions st')
       = List.length (Duplicates.log st) + List.length (Duplicates.questions st)
    /\ exists added, Duplicates.log st' = Duplicates.log st ++ added.
Proof.
  induction fuel as [|fuel IH]; intros i st st' H; cbn [outer_loop] in H.
  - injection H as <-. split; [apply subseq_refl|]. split; [reflexivity|].
    exists []. rewrite app_nil_r. reflexivity.
  - destruct (nth_error (Duplicates.questions st) i) as [q1|].
    + destruct (inner_loop ratio i q1 (skipn (S i) (Duplicates.questions st)) (S i) st)
        as [[[]|e] st1] eqn:Hin; [|discriminate].
      destruct (inner_loop_accounts _ _ _ _ _ _ Hin) as [Hs1 [Hl1 [a1 Hg1]]].
      destruct (IH _ _ _ H) as [Hs2 [Hl2 [a2 Hg2]]].
      split; [eapply subseq_trans; eauto|]. split; [lia|].
      exists (a1 ++ a2). rewrite Hg2, Hg1, <- app_assoc. reflexivity.
    + injection H as <-. split; [apply subseq_refl|]. split; [reflexivity|].
      exists []. rewrite app_nil_r. reflexivity.
Qed.

(** X13: when [check_duplicate_questions] returns, the list it returns is
    the given one with some questions left out, the others in their order
    (nothing is added, changed or moved), the earlier records of the logger
    are kept, and exactly one warning was logged for each question removed. *)
Theorem check_duplicate_questions_only_removes
  (qs out : list value) (lg : logger) (st : heap) :
  check_duplicate_questions ratio qs lg = (Ok out, st) ->
  subseq out qs
  /\ Duplicates.questions st = out
  /\ (exists added, Duplicates.log st = lg ++ added
                    /\ List.length added + List.length out = List.length qs).
Proof.
  unfold check_duplicate_questions. intros H.
  destruct (outer_loop ratio (List.length qs) 0 {| questions := qs; log := lg |})
    as [[[]|e] st1] eqn:Ho; [|discriminate].
  injection H as <- <-.
  destruct (outer_loop_accounts _ _ _ _ Ho) as [Hs [Hl [added Hg]]]. cbn in Hs, Hl, Hg.
  split; [exact Hs|]. split; [reflexivity|].
  exists added. split; [exact Hg|]. rewrite Hg, length_app in Hl. lia.
Qed.

Lemma ordered_pairs_later (l : list value) :
  ForallOrdPairs (dissimilar ratio) l ->
  forall i q1, nth_error l i = Some q1 -> Forall (dissimilar ratio q1) (skipn (S i) l).
Proof.
  induction 1 as [|x l Hx _ IH]; intros i q1 Hn.
  - destruct i; discriminate.
  - destruct i as [|i]; simpl in Hn.
    + injection Hn as <-. exact Hx.
    + apply IH. exact Hn.
Qed.

Lemma inner_loop_dissimilar (slice : list value) :
  forall i q1 j st,
    Forall (dissimilar ratio q1) slice ->
    inner_loop ratio i q1 slice j st = (Ok tt, st).
Proof.
  induction slice as [|q2 rest IH]; intros i q1 j st H; cbn [inner_loop]; [reflexivity|].
  inversion H as [|? ? [t1 [t2 [H1 [H2 Hr]]]] Hrest]; subst.
  rewrite H1. cbn [Py.bind]. rewrite H2. cbn [Py.bind]. rewrite Hr.
  apply IH. exact Hrest.
Qed.

Lemma outer_loop_dissimilar (fuel : nat) :
  forall i st,
    ForallOrdPairs (dissimilar ratio) (Duplicates.questions st) ->
    outer_loop ratio fuel i st = (Ok tt, st).
Proof.
  induction fuel as [|fuel IH]; intros i st H; cbn [outer_loop]; [reflexivity|].
  destruct (nth_error (Duplicates.questions st) i) as [q1|] eqn:Hn; [|reflexivity].
  rewrite inner_loop_dissimilar; [apply IH; exact H|].
  apply ordered_pairs_later; assumption.
Qed.

(** X14: when no question is rated above 0.8 against a later one, the list
    is returned as it is and nothing is logged. *)
Theorem check_duplicate_questions_keeps_dissimilar (qs : list value) (lg : logger) :
  ForallOrdPairs (dissimilar ratio) qs ->
  check_duplicate_questions ratio qs lg
  = (Ok qs, {| questions := qs; log := lg |}).
Proof.
  intros H. unfold check_duplicate_questions.
  rewrite outer_loop_dissimilar; [reflexivity | exact H].
Qed.

End DuplicateResults.

Lemma check_duplicate_questions_only_removes_witness :
  subseq [q_capital; q_capital_short]
         [q_capital; q_capital_city; q_capital_short; q_painter]
  /\ Duplicates.questions
       {| questions := [q_capital; q_capital_short];
          log := [very_similar 0 1; very_similar 0 2] |}
     = [q_capital; q_capital_short]
  /\ (exists added,
        Duplicates.log {| questions := [q_capital; q_capital_short];
                          log := [very_similar 0 1; very_similar 0 2] |}
        = [] ++ added
        /\ List.length added + List.length [q_capital; q_capital_short]
           = List.length [q_capital; q_capital_city; q_capital_short; q_painter]).
Proof.
  apply (check_duplicate_questions_only_removes Difflib.ratio_exceeds
           [q_capital; q_capital_city; q_capital_short; q_painter]
           [q_capital; q_capital_short] []
           {| questions := [q_capital; q_capital_short];
              log := [very_similar 0 1; very_similar 0 2] |}).
  vm_compute. reflexivity.
Defined.

Lemma check_duplicate_questions_keeps_dissimilar_witness :
  check_duplicate_questions Difflib.ratio_exceeds [q_capital; q_painter; q_ungrounded] []
  = (Ok [q_capital; q_painter; q_ungrounded],
     {| questions := [q_capital; q_painter; q_ungrounded]; log := [] |}).
Proof.
  apply (check_duplicate_questions_keeps_dissimilar Difflib.ratio_exceeds
           [q_capital; q_painter; q_ungrounded] []).
  repeat constructor; eexists; eexists; repeat split; vm_compute; reflexivity.
Defined.

(* ===================================================================== *)
(** ** Results on the API service and the components                     *)
(* ===================================================================== *)

Section FormResults.

Import Js.

Variable axios : Api.request -> Api.settled.

Lemma or_else_truthy (a b : js_value) : truthy b = true -> truthy (or_else a b) = true.
Proof. unfold or_else. destruct (truthy a) eqn:Ha; auto. Qed.

Lemma after_space_shorter (s rest : string) :
  after_space s = Some rest -> String.length rest < String.length s.
Proof.
  unfold after_space. destruct s as [|a [|b [|c r3]]]; try discriminate.
  - destruct (space1 _); [|discriminate]. intros H. injection H as <-. simpl. lia.
  - destruct (space1 _); [intros H; injection H as <-; simpl; lia|].
    destruct (space2 _ _); [|discriminate]. intros H. injection H as <-. simpl. lia.
  - destruct (space1 _); [intros H; injection H as <-; simpl; lia|].
    destruct (space2 _ _); [intros H; injection H as <-; simpl; lia|].
    destruct (space3 _ _ _); [|discriminate]. intros H. injection H as <-. simpl. lia.
Qed.

Lemma strip_empty (fuel : nat) :
  forall s, String.length s <= fuel ->
            (strip fuel s = "" <-> blank_within fuel s = true).
Proof.
  induction fuel as [|fuel IH]; intros s Hlen.
  - destruct s; simpl in *; [tauto | lia].
  - destruct s as [|a r]; [simpl; tauto|].
    cbn [strip blank_within].
    destruct (after_space (String a r)) as [rest|] eqn:Hs.
    + apply IH. apply after_space_shorter in Hs. lia.
    + split; discriminate.
Qed.

Lemma strip_no_space (fuel : nat) :
  forall s, String.length s <= fuel ->
            strip fuel s = "" \/ after_space (strip fuel s) = None.
Proof.
  induction fuel as [|fuel IH]; intros s Hlen.
  - destruct s; simpl in *; [left; reflexivity | lia].
  - cbn [strip]. destruct (after_space s) as [rest|] eqn:Hs.
    + apply IH. apply after_space_shorter in Hs. lia.
    + right. exact Hs.
Qed.

Lemma all_space_no_space (s : string) :
  all_space s = true -> after_space s = None -> s = "".
Proof.
  unfold all_space. destruct s as [|a r]; [reflexivity|].
  cbn [String.length blank_within]. intros H Hs. rewrite Hs in H. discriminate.
Qed.

Lemma trim_right_empty (s : string) : trim_right s = "" <-> all_space s = true.
Proof.
  destruct s as [|a r]; [simpl; tauto|].
  cbn [trim_right]. destruct (all_space (String a r)); split; try discriminate; reflexivity.
Qed.

Lemma trim_empty (s : string) : trim s = "" <-> all_space s = true.
Proof.
  unfold trim. rewrite trim_right_empty.
  unfold all_space at 2. rewrite <- (strip_empty (String.length s) s (le_n _)).
  fold (trim_left s). split.
  - intros H. destruct (strip_no_space (String.length s) s (le_n _)) as [He|Hn].
    + exact He.
    + apply all_space_no_space; assumption.
  - intros ->. reflexivity.
Qed.

(** X19: [handleSubmit] sends a request exactly when the URL field holds
    something else than the white space [trim] removes (that of Unicode,
    the no-break space included), and then exactly one, carrying the
    URL as typed and the chosen number of questions; a blank field only
    sets the message "Please enter a URL". *)
Theorem handleSubmit_sends_iff_not_blank (s : QuizGenerator.state) :
  (all_space (QuizGenerator.url s) = true
   -> QuizGenerator.handleSubmit axios s
      = ({| QuizGenerator.url := QuizGenerator.url s;
            QuizGenerator.numQuestions := QuizGenerator.numQuestions s;
            QuizGenerator.loading := QuizGenerator.loading s;
            QuizGenerator.error := Text "Please enter a URL" |}, []))
  /\ (all_space (QuizGenerator.url s) = false
      -> exists rest,
           snd (QuizGenerator.handleSubmit axios s)
           = QuizGenerator.Sent (QuizGenerator.request_of s) :: rest
           /\ Forall (fun e => forall r, e <> QuizGenerator.Sent r) rest
           /\ QuizGenerator.loading (fst (QuizGenerator.handleSubmit axios s)) = false).
Proof.
  unfold QuizGenerator.handleSubmit. cbn [truthy]. split.
  - intros H. apply trim_empty in H. rewrite H. reflexivity.
  - intros H.
    assert (Hne : String.eqb (trim (QuizGenerator.url s)) "" = false).
    { apply String.eqb_neq. intros He. apply trim_empty in He. congruence. }
    rewrite Hne. cbn [negb].
    destruct (Api.generateQuiz axios _ _).
    + eexists. split; [reflexivity|]. split; [|reflexivity].
      repeat constructor. discriminate.
    + eexists. split; [reflexivity|]. split; [constructor | reflexivity].
Qed.

(** X20: when the request fails, the service throws the [error] member of
    the response body if there is one, and the axios error otherwise, never
    undefined or null; the form then shows a non-empty message, namely the
    [message] of that server error when it is an object with one, keeps the
    URL and the number of questions as they were, stops loading and does
    not call [onQuizGenerated]. *)
Theorem handleSubmit_failure_shows_message
  (s : QuizGenerator.state) (e : list (string * js_value)) :
  all_space (QuizGenerator.url s) = false ->
  axios (QuizGenerator.request_of s) = Api.Rejected e ->
  truthy (Api.unwrap e) = true
  /\ snd (QuizGenerator.handleSubmit axios s) = [QuizGenerator.Sent (QuizGenerator.request_of s)]
  /\ QuizGenerator.url (fst (QuizGenerator.handleSubmit axios s)) = QuizGenerator.url s
  /\ QuizGenerator.numQuestions (fst (QuizGenerator.handleSubmit axios s))
     = QuizGenerator.numQuestions s
  /\ QuizGenerator.loading (fst (QuizGenerator.handleSubmit axios s)) = false
  /\ truthy (QuizGenerator.error (fst (QuizGenerator.handleSubmit axios s))) = true
  /\ (forall payload,
        get (get (get (Object e) "response") "data") "error" = Object payload ->
        truthy (property "message" payload) = true ->
        QuizGenerator.error (fst (QuizGenerator.handleSubmit axios s))
        = property "message" payload).
Proof.
  intros Hb Hax.
  assert (Hne : String.eqb (trim (QuizGenerator.url s)) "" = false).
  { apply String.eqb_neq. intros He. apply trim_empty in He. congruence. }
  unfold QuizGenerator.handleSubmit, Api.generateQuiz. cbn [truthy].
  rewrite Hne. cbn [negb].
  change {| Api.method := "post"; Api.path := "/quiz/generate";
            Api.data := [("url", Text (QuizGenerator.url s));
                         ("num_questions", Number (QuizGenerator.numQuestions s))] |}
    with (QuizGenerator.request_of s).
  rewrite Hax. cbn [Api.finish fst snd QuizGenerator.url QuizGenerator.numQuestions
                    QuizGenerator.loading QuizGenerator.error].
  split; [apply or_else_truthy; reflexivity|].
  repeat split.
  - apply or_else_truthy. reflexivity.
  - intros payload Hp Hm. unfold Api.unwrap. rewrite Hp.
    unfold or_else at 2. cbn [truthy get]. unfold or_else. rewrite Hm. reflexivity.
Qed.

End FormResults.

Lemma handleSubmit_failure_shows_message_witness :
  QuizGenerator.error (fst (QuizGenerator.handleSubmit Samples.axios_rejecting
                                                       Samples.form_sample))
  = Js.Text "Article content is too short (minimum 300 words)".
Proof.
  destruct (handleSubmit_failure_shows_message Samples.axios_rejecting
              Samples.form_sample Samples.rejected_sample eq_refl eq_refl)
    as [_ [_ [_ [_ [_ [_ H]]]]]].
  apply (H [("code", Js.Text "CONTENT_TOO_SHORT");
            ("message", Js.Text "Article content is too short (minimum 300 words)")]);
    reflexivity.
Defined.

Lemma handleSubmit_sends_iff_not_blank_witness :
  QuizGenerator.handleSubmit Samples.axios_rejecting
    {| QuizGenerator.url := "   "; QuizGenerator.numQuestions := 8;
       QuizGenerator.loading := false; QuizGenerator.error := Js.Null |}
  = ({| QuizGenerator.url := "   "; QuizGenerator.numQuestions := 8;
        QuizGenerator.loading := false;
        QuizGenerator.error := Js.Text "Please enter a URL" |}, []).
Proof.
  apply (proj1 (handleSubmit_sends_iff_not_blank Samples.axios_rejecting
                  {| QuizGenerator.url := "   "; QuizGenerator.numQuestions := 8;
                     QuizGenerator.loading := false; QuizGenerator.error := Js.Null |})).
  reflexivity.
Defined.

(** A field that holds a no-break space and a space is blank. *)
Lemma handleSubmit_no_break_space :
  QuizGenerator.handleSubmit Samples.axios_rejecting
    {| QuizGenerator.url := Samples.no_break_space; QuizGenerator.numQuestions := 8;
       QuizGenerator.loading := false; QuizGenerator.error := Js.Null |}
  = ({| QuizGenerator.url := Samples.no_break_space; QuizGenerator.numQuestions := 8;
        QuizGenerator.loading := false;
        QuizGenerator.error := Js.Text "Please enter a URL" |}, []).
Proof. reflexivity. Qed.

Section MoreDisplayResults.

Import QuizDisplay.

Lemma marked_count (correct : js) (optionList : list js) :
  forall optIdx,
    List.length (filter isCorrect (map_options correct optIdx optionList))
    = List.length (filter (fun o => strict_eq o correct) optionList)
    /\ map option_ (map_options correct optIdx optionList) = optionList
    /\ map letter (map_options correct optIdx optionList)
       = map (fun i => fromCharCode (65 + i)) (seq optIdx (List.length optionList)).
Proof.
  induction optionList as [|o rest IH]; intros optIdx; simpl; [auto|].
  destruct (IH (S optIdx)) as [Hc [Ho Hl]]. rewrite Ho, Hl.
  split; [|split; reflexivity].
  destruct (strict_eq o correct); simpl; rewrite Hc; reflexivity.
Qed.

Lemma count_in_distinct (correct : js) (l : list js) :
  NoDup l ->
  List.length (filter (fun o => strict_eq o correct) l)
  = if existsb (fun o => strict_eq o correct) l then 1 else 0.
Proof.
  induction 1 as [|x l Hx _ IH]; simpl; [reflexivity|].
  destruct (strict_eq x correct) eqn:Hs; simpl; [|exact IH].
  apply strict_eq_true in Hs. subst x. rewrite IH.
  destruct (existsb (fun o => strict_eq o correct) l) eqn:He; [|reflexivity].
  apply existsb_exists in He. destruct He as [y [Hy Hyc]].
  apply strict_eq_true in Hyc. subst y. contradiction.
Qed.

(** X21: the options are rendered in their order, lettered A, B, C, ...
    by position; when they are pairwise different, exactly one of them is
    marked as correct if the answer is among them, and none otherwise. *)
Theorem distinct_options_mark_at_most_one (q : question) (optionList : list js) :
  options q = Some optionList ->
  NoDup optionList ->
  map option_ (render_options q) = optionList
  /\ map letter (render_options q)
     = map (fun i => fromCharCode (65 + i)) (seq 0 (List.length optionList))
  /\ (In (answer q) optionList ->
      List.length (filter isCorrect (render_options q)) = 1)
  /\ (~ In (answer q) optionList ->
      List.length (filter isCorrect (render_options q)) = 0).
Proof.
  intros Ho Hnd. unfold render_options. rewrite Ho.
  destruct (marked_count (answer q) optionList 0) as [Hc [Hopt Hlet]].
  split; [exact Hopt|]. split; [exact Hlet|].
  rewrite Hc, (count_in_distinct _ _ Hnd). split.
  - intros Hin. replace (existsb _ optionList) with true; [reflexivity|].
    symmetry. apply existsb_exists. exists (answer q). split; [exact Hin|].
    apply strict_eq_true. reflexivity.
  - intros Hnin. destruct (existsb _ optionList) eqn:He; [|reflexivity].
    apply existsb_exists in He. destruct He as [y [Hy Hyc]].
    apply strict_eq_true in Hyc. subst y. contradiction.
Qed.

End MoreDisplayResults.

Lemma distinct_options_mark_at_most_one_witness :
  map QuizDisplay.option_ (QuizDisplay.render_options display_sample)
  = [QuizDisplay.JStr "Paris"; QuizDisplay.JStr "Lyon";
     QuizDisplay.JStr "Nice"; QuizDisplay.JStr "Lille"].
Proof.
  apply (distinct_options_mark_at_most_one display_sample
           [QuizDisplay.JStr "Paris"; QuizDisplay.JStr "Lyon";
            QuizDisplay.JStr "Nice"; QuizDisplay.JStr "Lille"]).
  - reflexivity.
  - repeat constructor; simpl; intuition discriminate.
Defined.

Section MoreHistoryResults.

Import QuizHistory.
Local Open Scope Z_scope.

Lemma next_round (quizzes_ : list Js.js_value) (total_ p : Z) :
  quizzes_ <> [] -> 1 < pages_of total_ -> 1 <= p <= pages_of total_ ->
  run [Next; Fetched quizzes_ total_] (showing quizzes_ total_ p)
  = showing quizzes_ total_ (Z.min (p + 1) (pages_of total_)).
Proof.
  intros Hq Ht Hp. cbn [run handle].
  assert (Hr : pagination_rendered (showing quizzes_ total_ p) = true).
  { unfold pagination_rendered, totalPages. cbn [loading quizzes total showing negb andb].
    destruct quizzes_; [congruence|]. apply Z.ltb_lt in Ht. rewrite Ht. reflexivity. }
  rewrite Hr. unfold totalPages. cbn [total showing page andb].
  destruct (p =? pages_of total_) eqn:He; cbn [negb].
  - apply Z.eqb_eq in He. unfold showing. cbn [page search error]. f_equal. lia.
  - apply Z.eqb_neq in He.
    assert (Hn : rendered_again (showing quizzes_ total_ p)
                                (next (showing quizzes_ total_ p))
                 = fetch_started (showing quizzes_ total_ (p + 1))).
    { unfold rendered_again, next, setPage, totalPages, showing.
      cbn [page total search quizzes loading error].
      replace (Z.min (pages_of total_) (p + 1)) with (p + 1) by lia.
      replace (p + 1 =? p) with false by (symmetry; apply Z.eqb_neq; lia).
      reflexivity. }
    rewrite Hn. unfold fetch_started, showing.
    cbn [page total search quizzes loading error]. f_equal. lia.
Qed.

Lemma next_rounds_from (quizzes_ : list Js.js_value) (total_ : Z) (k : nat) :
  quizzes_ <> [] -> 1 < pages_of total_ ->
  forall p, 1 <= p <= pages_of total_ ->
    run (next_rounds quizzes_ total_ k) (showing quizzes_ total_ p)
    = showing quizzes_ total_ (Z.min (p + Z.of_nat k) (pages_of total_)).
Proof.
  intros Hq Ht. induction k as [|k IH]; intros p Hp.
  - simpl. f_equal. lia.
  - unfold next_rounds. cbn [repeat concat].
    change (([Next; Fetched quizzes_ total_] ++ concat (repeat [Next; Fetched quizzes_ total_] k)))
      with (Next :: Fetched quizzes_ total_ :: next_rounds quizzes_ total_ k).
    change (run (Next :: Fetched quizzes_ total_ :: next_rounds quizzes_ total_ k)
                (showing quizzes_ total_ p))
      with (run (next_rounds quizzes_ total_ k)
                (run [Next; Fetched quizzes_ total_] (showing quizzes_ total_ p))).
    rewrite next_round by assumption. rewrite IH by lia. f_equal. lia.
Qed.

Lemma clicks_while_loading (k : nat) : run (repeat Next k) mounted = mounted.
Proof. induction k as [|k IH]; [reflexivity | exact IH]. Qed.

(** X22: once the first answer has come, with a page of quizzes and more
    than one page in total, [k] clicks on Next, each followed by the answer
    to the request it starts, lead to page [k + 1], or to the last page once
    that is reached, as long as the answers report the same total.  Clicks
    made before the first answer do nothing: the buttons are not rendered
    while the component is loading. *)
Theorem next_advances_one_page_per_click
  (quizzes_ : list Js.js_value) (total_ : Z) (k : nat) :
  quizzes_ <> [] -> 1 < pages_of total_ ->
  page (run (Fetched quizzes_ total_ :: next_rounds quizzes_ total_ k) mounted)
  = Z.min (1 + Z.of_nat k) (pages_of total_)
  /\ run (repeat Next k) mounted = mounted.
Proof.
  intros Hq Ht. split; [|apply clicks_while_loading].
  change (run (Fetched quizzes_ total_ :: next_rounds quizzes_ total_ k) mounted)
    with (run (next_rounds quizzes_ total_ k) (showing quizzes_ total_ 1)).
  rewrite next_rounds_from by (assumption || lia). reflexivity.
Qed.

End MoreHistoryResults.

Lemma next_advances_one_page_per_click_witness :
  QuizHistory.page
    (QuizHistory.run
       (QuizHistory.Fetched [Js.Number 1] 45 :: QuizHistory.next_rounds [Js.Number 1] 45 5)
       QuizHistory.mounted)
  = 3%Z.
Proof.
  apply (proj1 (next_advances_one_page_per_click [Js.Number 1] 45 5
                  ltac:(discriminate) ltac:(vm_compute; reflexivity))).
Defined.
